(** * MedChain: the authorization and audit engine

    A shallow embedding of the Solidity contract [MedChain]
    (pragma solidity ^0.8.19) and the properties of its access-control,
    record and audit-trail logic.

    Conventions of the embedding:
    - [uint256] and [address] are [N]; Solidity 0.8 arithmetic is checked,
      so [+] and [++] revert with [Panic 0x11] instead of wrapping;
    - a memory array is a list; allocating more than [2^64 - 1] elements
      is [Panic 0x41] and an index out of bounds is [Panic 0x32];
    - a [mapping] is a [gmap] read with the type's zero value as default;
    - [require(c, msg)] is [Err (Revert msg)];
    - a [view] function is a function of the state that returns a [result];
      a state-changing function is a state transformer that also returns
      the state reached when it stopped, so that "every guard precedes every
      write" is a theorem and not an assumption;
    - [msg.sender] and [block.timestamp] come in an [Env]. *)

From stdpp Require Import gmap strings list.
From Stdlib Require Import NArith Lia Sorting.Sorted.

Local Open Scope N_scope.

Abbreviation address := N.
Abbreviation uint256 := N.

Definition MAX_UINT256 : N := 2 ^ 256 - 1.
Definition MAX_UINT64 : N := 2 ^ 64 - 1.

(** ** Errors and results *)

Inductive error :=
| Revert (reason : string)
| Panic (code : N)
| OutOfGas.

Inductive result (A : Type) :=
| Ok (a : A)
| Err (e : error).
Arguments Ok {A} a.
Arguments Err {A} e.

Definition rbind {A B} (r : result A) (k : A -> result B) : result B :=
  match r with
  | Ok a => k a
  | Err e => Err e
  end.

Notation "'let?' x := c 'in' k" := (rbind c (fun x => k))
  (at level 10, x pattern, c at level 100, k at level 200).

Definition require (c : bool) (reason : string) : result unit :=
  if c then Ok tt else Err (Revert reason).

(** Checked addition ([a + b], [a++]): overflow is [Panic(0x11)]. *)
Definition checked_add (a b : uint256) : result uint256 :=
  if a + b <=? MAX_UINT256 then Ok (a + b) else Err (Panic 0x11).

(** Memory arrays. [new uint256[](n)] gives [n] zeros, and reverts with
    [Panic(0x41)] when [n] is above [0xffffffffffffffff]; an index out of
    bounds is [Panic(0x32)]. *)
Definition new_array (n : uint256) : result (list uint256) :=
  if n <=? MAX_UINT64 then Ok (replicate (N.to_nat n) 0)
  else Err (Panic 0x41).

Definition array_get (a : list uint256) (i : uint256) : result uint256 :=
  match a !! N.to_nat i with
  | Some v => Ok v
  | None => Err (Panic 0x32)
  end.

Definition array_set (a : list uint256) (i v : uint256) : result (list uint256) :=
  if i <? N.of_nat (length a) then Ok (<[N.to_nat i := v]> a)
  else Err (Panic 0x32).

(** The error kinds, by the message the contract reverts with. *)
Definition AlreadyRegistered := Revert "User already registered".
Definition InvalidRole := Revert "Invalid role".
Definition EmptyName := Revert "Name cannot be empty".
Definition NotRegistered := Revert "User not registered".
Definition OnlyPatients := Revert "Only patients allowed".
Definition OnlyDoctors := Revert "Only doctors allowed".
Definition EmptyPayloadReference := Revert "IPFS hash required".
Definition RecordNotFound := Revert "Record does not exist".
Definition Unauthorized := Revert "Unauthorized access".
Definition NotOwnList := Revert "Can only check your own accessible records".
Definition GranteeNotDoctor := Revert "Can only grant to doctors".
Definition GranteeNotRegistered := Revert "Doctor not registered".
Definition NoActivePermission := Revert "No active permission".
Definition AdminOnly := Revert "Only admin allowed".

(** ** Enums and structs *)

Inductive UserRole := None_ | Patient | Doctor | Admin.

Definition UserRole_eqb (a b : UserRole) : bool :=
  match a, b with
  | None_, None_ | Patient, Patient | Doctor, Doctor | Admin, Admin => true
  | _, _ => false
  end.

Module User.
Record t := mk {
  userAddress : address;
  name : string;
  role : UserRole;
  isRegistered : bool;
  registrationTime : uint256
}.
Definition zero : t := mk 0 "" None_ false 0.
End User.

Module MedicalRecord.
Record t := mk {
  recordId : uint256;
  patientAddress : address;
  ipfsHash : string;
  recordType : string;
  description : string;
  timestamp : uint256;
  exists_ : bool
}.
Definition zero : t := mk 0 0 "" "" "" 0 false.
End MedicalRecord.

Module AccessPermission.
Record t := mk {
  doctorAddress : address;
  grantedAt : uint256;
  expiresAt : uint256;
  isActive : bool;
  purpose : string
}.
Definition zero : t := mk 0 0 0 false "".
Definition set_isActive (b : bool) (p : t) : t :=
  mk (doctorAddress p) (grantedAt p) (expiresAt p) b (purpose p).
End AccessPermission.

Module AuditLog.
Record t := mk {
  accessor : address;
  recordId : uint256;
  timestamp : uint256;
  action : string
}.
End AuditLog.

Inductive Event :=
| UserRegistered (userAddress : address) (name : string) (role : UserRole)
| RecordCreated (recordId : uint256) (patient : address) (recordType : string)
| AccessGranted (patient doctor : address) (expiresAt : uint256)
| AccessRevoked (patient doctor : address)
| RecordAccessed (accessor : address) (recordId : uint256)
| EmergencyModeToggled (status : bool).

(** ** State variables *)

Record State := mkState {
  users : gmap address User.t;
  patientRecords : gmap address (list uint256);
  records : gmap uint256 MedicalRecord.t;
  permissions : gmap (address * address) AccessPermission.t;
  auditTrails : gmap address (list AuditLog.t);
  recordCounter : uint256;
  admin : address;
  emergencyMode : bool;
  emitted : list Event
}.

Record Env := mkEnv {
  msg_sender : address;
  block_timestamp : uint256
}.

(** Reads of the mappings: an absent key reads as the zero value. *)
Definition user_of (s : State) (a : address) : User.t :=
  default User.zero (users s !! a).
Definition patientRecords_of (s : State) (a : address) : list uint256 :=
  default [] (patientRecords s !! a).
Definition record_of (s : State) (id : uint256) : MedicalRecord.t :=
  default MedicalRecord.zero (records s !! id).
Definition permission_of (s : State) (p d : address) : AccessPermission.t :=
  default AccessPermission.zero (permissions s !! (p, d)).
Definition auditTrail_of (s : State) (a : address) : list AuditLog.t :=
  default [] (auditTrails s !! a).

(** Writes. *)
Definition set_user (a : address) (u : User.t) (s : State) : State :=
  mkState (<[a := u]> (users s)) (patientRecords s) (records s)
    (permissions s) (auditTrails s) (recordCounter s) (admin s)
    (emergencyMode s) (emitted s).
Definition push_patientRecord (a : address) (id : uint256) (s : State) : State :=
  mkState (users s) (<[a := patientRecords_of s a ++ [id]]> (patientRecords s))
    (records s) (permissions s) (auditTrails s) (recordCounter s) (admin s)
    (emergencyMode s) (emitted s).
Definition set_record (id : uint256) (r : MedicalRecord.t) (s : State) : State :=
  mkState (users s) (patientRecords s) (<[id := r]> (records s))
    (permissions s) (auditTrails s) (recordCounter s) (admin s)
    (emergencyMode s) (emitted s).
Definition set_permission (p d : address) (x : AccessPermission.t) (s : State) : State :=
  mkState (users s) (patientRecords s) (records s)
    (<[(p, d) := x]> (permissions s)) (auditTrails s) (recordCounter s)
    (admin s) (emergencyMode s) (emitted s).
Definition push_auditTrail (a : address) (l : AuditLog.t) (s : State) : State :=
  mkState (users s) (patientRecords s) (records s) (permissions s)
    (<[a := auditTrail_of s a ++ [l]]> (auditTrails s)) (recordCounter s)
    (admin s) (emergencyMode s) (emitted s).
Definition set_recordCounter (n : uint256) (s : State) : State :=
  mkState (users s) (patientRecords s) (records s) (permissions s)
    (auditTrails s) n (admin s) (emergencyMode s) (emitted s).
Definition set_emergencyMode (b : bool) (s : State) : State :=
  mkState (users s) (patientRecords s) (records s) (permissions s)
    (auditTrails s) (recordCounter s) (admin s) b (emitted s).
Definition emit (ev : Event) (s : State) : State :=
  mkState (users s) (patientRecords s) (records s) (permissions s)
    (auditTrails s) (recordCounter s) (admin s) (emergencyMode s)
    (emitted s ++ [ev]).

(** ** State-changing code: a state and error monad

    A computation returns its result together with the state it stopped
    in; after [Err] that is the state at the failing statement. *)

Definition Exec (A : Type) : Type := State -> result A * State.

Definition ret {A} (a : A) : Exec A := fun s => (Ok a, s).
Definition bind {A B} (m : Exec A) (k : A -> Exec B) : Exec B :=
  fun s => match m s with
           | (Ok a, s') => k a s'
           | (Err e, s') => (Err e, s')
           end.
Definition view {A} (f : State -> result A) : Exec A := fun s => (f s, s).
Definition gets {A} (f : State -> A) : Exec A := fun s => (Ok (f s), s).
Definition modify (f : State -> State) : Exec unit := fun s => (Ok tt, f s).

Notation "'let!' x := c 'in' k" := (bind c (fun x => k))
  (at level 10, x pattern, c at level 100, k at level 200).

Definition requireS (c : State -> bool) (reason : string) : Exec unit :=
  view (fun s => require (c s) reason).

Definition nonempty (x : string) : bool :=
  0 <? N.of_nat (String.length x).

(** ** Modifiers *)

Definition onlyRegistered (e : Env) (s : State) : result unit :=
  require (User.isRegistered (user_of s (msg_sender e))) "User not registered".

Definition onlyPatient (e : Env) (s : State) : result unit :=
  require (UserRole_eqb (User.role (user_of s (msg_sender e))) Patient)
    "Only patients allowed".

Definition onlyDoctor (e : Env) (s : State) : result unit :=
  require (UserRole_eqb (User.role (user_of s (msg_sender e))) Doctor)
    "Only doctors allowed".

Definition onlyAdmin (e : Env) (s : State) : result unit :=
  require (msg_sender e =? admin s) "Only admin allowed".

Definition recordExists (_recordId : uint256) (s : State) : result unit :=
  require (MedicalRecord.exists_ (record_of s _recordId)) "Record does not exist".

(** ** Constructor *)

Definition zero_state : State := mkState ∅ ∅ ∅ ∅ ∅ 0 0 false [].

Definition set_admin (a : address) (s : State) : State :=
  mkState (users s) (patientRecords s) (records s) (permissions s)
    (auditTrails s) (recordCounter s) a (emergencyMode s) (emitted s).

Definition constructor (e : Env) : State :=
  let s := set_admin (msg_sender e) zero_state in
  let s := set_emergencyMode false s in
  set_user (admin s)
    (User.mk (admin s) "System Admin" Admin true (block_timestamp e)) s.

(** ** User management *)

Definition registerUser (e : Env) (_name : string) (_role : UserRole) : Exec unit :=
  let! _ := requireS (fun s => negb (User.isRegistered (user_of s (msg_sender e))))
              "User already registered" in
  let! _ := requireS (fun _ => UserRole_eqb _role Patient || UserRole_eqb _role Doctor)
              "Invalid role" in
  let! _ := requireS (fun _ => nonempty _name) "Name cannot be empty" in
  let! _ := modify (set_user (msg_sender e)
              (User.mk (msg_sender e) _name _role true (block_timestamp e))) in
  modify (emit (UserRegistered (msg_sender e) _name _role)).

Definition getUserInfo (_userAddress : address) (s : State)
  : result (string * UserRole * bool * uint256) :=
  let user := user_of s _userAddress in
  Ok (User.name user, User.role user, User.isRegistered user,
      User.registrationTime user).

(** ** Audit trail *)

Definition _addAuditLog (e : Env) (_accessor : address) (_recordId : uint256)
    (_action : string) : Exec unit :=
  modify (push_auditTrail _accessor
            (AuditLog.mk _accessor _recordId (block_timestamp e) _action)).

Definition getAuditTrail (_user : address) (s : State) : result (list AuditLog.t) :=
  Ok (auditTrail_of s _user).

(** ** Medical records *)

Definition createRecord (e : Env) (_ipfsHash _recordType _description : string)
  : Exec uint256 :=
  let! _ := view (onlyRegistered e) in
  let! _ := view (onlyPatient e) in
  let! _ := requireS (fun _ => nonempty _ipfsHash) "IPFS hash required" in
  let! next := view (fun s => checked_add (recordCounter s) 1) in
  let! _ := modify (set_recordCounter next) in
  let! _ := modify (fun s =>
              set_record (recordCounter s)
                (MedicalRecord.mk (recordCounter s) (msg_sender e) _ipfsHash
                   _recordType _description (block_timestamp e) true) s) in
  let! _ := modify (fun s => push_patientRecord (msg_sender e) (recordCounter s) s) in
  let! _ := (fun s => _addAuditLog e (msg_sender e) (recordCounter s) "CREATE" s) in
  let! _ := modify (fun s =>
              emit (RecordCreated (recordCounter s) (msg_sender e) _recordType) s) in
  gets recordCounter.

Definition getPatientRecordIds (_patient : address) (s : State)
  : result (list uint256) :=
  Ok (patientRecords_of s _patient).

Definition _hasAccess (e : Env) (_patient _doctor : address) (_recordId : uint256)
    (s : State) : bool :=
  let perm := permission_of s _patient _doctor in
  if negb (AccessPermission.isActive perm) then false
  else if (0 <? AccessPermission.expiresAt perm)
          && (AccessPermission.expiresAt perm <=? block_timestamp e) then false
  else true.

(** The first loop of [getDoctorAccessibleRecords]:
    [for (i = 1; i <= recordCounter; i++)], from the current [i], with the
    scratch array and [count]. *)
Fixpoint scan_records (fuel : nat) (e : Env) (s : State) (_doctor : address)
    (i : uint256) (accessibleRecords : list uint256) (count : uint256)
  : result (list uint256 * uint256) :=
  if i <=? recordCounter s then
    match fuel with
    | O => Err OutOfGas
    | S fuel' =>
        let? (accessibleRecords', count') :=
          if MedicalRecord.exists_ (record_of s i) then
            let patientAddress := MedicalRecord.patientAddress (record_of s i) in
            if _hasAccess e patientAddress _doctor i s then
              let? a := array_set accessibleRecords count i in
              let? c := checked_add count 1 in
              Ok (a, c)
            else Ok (accessibleRecords, count)
          else Ok (accessibleRecords, count) in
        let? i' := checked_add i 1 in
        scan_records fuel' e s _doctor i' accessibleRecords' count'
    end
  else Ok (accessibleRecords, count).

(** The second loop: [for (i = 0; i < count; i++) result[i] = accessibleRecords[i]]. *)
Fixpoint copy_records (fuel : nat) (accessibleRecords : list uint256)
    (count i : uint256) (result_ : list uint256) : result (list uint256) :=
  if i <? count then
    match fuel with
    | O => Err OutOfGas
    | S fuel' =>
        let? v := array_get accessibleRecords i in
        let? result' := array_set result_ i v in
        let? i' := checked_add i 1 in
        copy_records fuel' accessibleRecords count i' result'
    end
  else Ok result_.

Definition getDoctorAccessibleRecords (e : Env) (_doctor : address) (s : State)
  : result (list uint256) :=
  let? _ := onlyDoctor e s in
  let? _ := require (_doctor =? msg_sender e)
              "Can only check your own accessible records" in
  let? accessibleRecords := new_array (recordCounter s) in
  let? (accessibleRecords, count) :=
    scan_records (N.to_nat (recordCounter s)) e s _doctor 1 accessibleRecords 0 in
  let? result_ := new_array count in
  copy_records (N.to_nat count) accessibleRecords count 0 result_.

Definition getRecord (e : Env) (_recordId : uint256) (s : State)
  : result (address * string * string * string * uint256) :=
  let? _ := recordExists _recordId s in
  let record := record_of s _recordId in
  let? _ := require
      ((msg_sender e =? MedicalRecord.patientAddress record)
       || _hasAccess e (MedicalRecord.patientAddress record) (msg_sender e) _recordId s
       || (emergencyMode s && UserRole_eqb (User.role (user_of s (msg_sender e))) Doctor)
       || (msg_sender e =? admin s))
      "Unauthorized access" in
  Ok (MedicalRecord.patientAddress record, MedicalRecord.ipfsHash record,
      MedicalRecord.recordType record, MedicalRecord.description record,
      MedicalRecord.timestamp record).

(** ** Access control *)

Definition grantAccess (e : Env) (_doctor : address) (_expiryDuration : uint256)
    (_purpose : string) : Exec unit :=
  let! _ := view (onlyRegistered e) in
  let! _ := view (onlyPatient e) in
  let! _ := requireS (fun s => UserRole_eqb (User.role (user_of s _doctor)) Doctor)
              "Can only grant to doctors" in
  let! _ := requireS (fun s => User.isRegistered (user_of s _doctor))
              "Doctor not registered" in
  let! expiresAt := view (fun _ =>
              if 0 <? _expiryDuration
              then checked_add (block_timestamp e) _expiryDuration
              else Ok 0) in
  let! _ := modify (set_permission (msg_sender e) _doctor
              (AccessPermission.mk _doctor (block_timestamp e) expiresAt true
                 _purpose)) in
  let! _ := _addAuditLog e (msg_sender e) 0 "GRANT_ACCESS" in
  modify (emit (AccessGranted (msg_sender e) _doctor expiresAt)).

Definition revokeAccess (e : Env) (_doctor : address) : Exec unit :=
  let! _ := view (onlyRegistered e) in
  let! _ := view (onlyPatient e) in
  let! _ := requireS (fun s =>
              AccessPermission.isActive (permission_of s (msg_sender e) _doctor))
              "No active permission" in
  let! _ := modify (fun s =>
              set_permission (msg_sender e) _doctor
                (AccessPermission.set_isActive false
                   (permission_of s (msg_sender e) _doctor)) s) in
  let! _ := _addAuditLog e (msg_sender e) 0 "REVOKE_ACCESS" in
  modify (emit (AccessRevoked (msg_sender e) _doctor)).

Definition checkAccess (e : Env) (_patient _doctor : address) (s : State)
  : result (bool * uint256 * uint256 * string) :=
  let perm := permission_of s _patient _doctor in
  let isValid :=
    AccessPermission.isActive perm
    && ((AccessPermission.expiresAt perm =? 0)
        || (block_timestamp e <? AccessPermission.expiresAt perm)) in
  Ok (isValid, AccessPermission.grantedAt perm, AccessPermission.expiresAt perm,
      AccessPermission.purpose perm).

(** ** Emergency access and statistics *)

Definition toggleEmergencyMode (e : Env) : Exec unit :=
  let! _ := view (onlyAdmin e) in
  let! _ := modify (fun s => set_emergencyMode (negb (emergencyMode s)) s) in
  modify (fun s => emit (EmergencyModeToggled (emergencyMode s)) s).

Definition getStats (s : State) : result (uint256 * bool) :=
  Ok (recordCounter s, emergencyMode s).

(** ** Transactions

    The external interface of the contract, as one type of calls and one
    type of returned values. *)

Inductive Call :=
| RegisterUser (_name : string) (_role : UserRole)
| GetUserInfo (_userAddress : address)
| CreateRecord (_ipfsHash _recordType _description : string)
| GetPatientRecordIds (_patient : address)
| GetDoctorAccessibleRecords (_doctor : address)
| GetRecord (_recordId : uint256)
| GrantAccess (_doctor : address) (_expiryDuration : uint256) (_purpose : string)
| RevokeAccess (_doctor : address)
| CheckAccess (_patient _doctor : address)
| GetAuditTrail (_user : address)
| ToggleEmergencyMode
| GetStats.

Inductive Retval :=
| RUnit
| RUint (n : uint256)
| RUints (l : list uint256)
| RUser (u : string * UserRole * bool * uint256)
| RRecord (r : address * string * string * string * uint256)
| RAccess (a : bool * uint256 * uint256 * string)
| RAudit (l : list AuditLog.t)
| RStats (x : uint256 * bool).

Definition rmap {A B} (f : A -> B) (r : result A) : result B :=
  let? a := r in Ok (f a).

Definition emap {A B} (f : A -> B) (m : Exec A) : Exec B :=
  let! a := m in ret (f a).

Definition dispatch (e : Env) (c : Call) : Exec Retval :=
  match c with
  | RegisterUser n r => emap (fun _ => RUnit) (registerUser e n r)
  | GetUserInfo a => view (fun s => rmap RUser (getUserInfo a s))
  | CreateRecord h t d => emap RUint (createRecord e h t d)
  | GetPatientRecordIds p => view (fun s => rmap RUints (getPatientRecordIds p s))
  | GetDoctorAccessibleRecords d =>
      view (fun s => rmap RUints (getDoctorAccessibleRecords e d s))
  | GetRecord id => view (fun s => rmap RRecord (getRecord e id s))
  | GrantAccess d t p => emap (fun _ => RUnit) (grantAccess e d t p)
  | RevokeAccess d => emap (fun _ => RUnit) (revokeAccess e d)
  | CheckAccess p d => view (fun s => rmap RAccess (checkAccess e p d s))
  | GetAuditTrail u => view (fun s => rmap RAudit (getAuditTrail u s))
  | ToggleEmergencyMode => emap (fun _ => RUnit) (toggleEmergencyMode e)
  | GetStats => view (fun s => rmap RStats (getStats s))
  end.

(** A call as the ledger commits it: a revert discards whatever the body
    wrote. *)
Definition call (e : Env) (c : Call) (s : State) : result Retval * State :=
  match dispatch e c s with
  | (Ok v, s') => (Ok v, s')
  | (Err er, _) => (Err er, s)
  end.

Definition step (s : State) (tx : Env * Call) : State :=
  snd (call (fst tx) (snd tx) s).

(** A history is the deployment followed by a sequence of calls, each with
    its own sender and block time. *)
Fixpoint run (s : State) (txs : list (Env * Call)) : State :=
  match txs with
  | [] => s
  | tx :: txs' => run (step s tx) txs'
  end.

Fixpoint outcomes (s : State) (txs : list (Env * Call))
  : list (Env * Call * result Retval) :=
  match txs with
  | [] => []
  | tx :: txs' => (tx, fst (call (fst tx) (snd tx) s)) :: outcomes (step s tx) txs'
  end.

Definition reachable (s : State) : Prop :=
  exists e0 txs, s = run (constructor e0) txs.

(** The ids handed out by the successful [createRecord] calls of a history. *)
Definition created_id (o : Env * Call * result Retval) : option uint256 :=
  match o with
  | (_, CreateRecord _ _ _, Ok (RUint id)) => Some id
  | _ => None
  end.

Definition created_ids (os : list (Env * Call * result Retval)) : list uint256 :=
  omap created_id os.

(** The entry an actor's successful call is expected to leave in the
    actor's audit trail: CREATE with the new id, GRANT_ACCESS and
    REVOKE_ACCESS with record id 0, nothing for any other call. *)
Definition logged_action (a : address) (o : Env * Call * result Retval)
  : option AuditLog.t :=
  match o with
  | (e, CreateRecord _ _ _, Ok (RUint id)) =>
      if msg_sender e =? a
      then Some (AuditLog.mk a id (block_timestamp e) "CREATE") else None
  | (e, GrantAccess _ _ _, Ok _) =>
      if msg_sender e =? a
      then Some (AuditLog.mk a 0 (block_timestamp e) "GRANT_ACCESS") else None
  | (e, RevokeAccess _, Ok _) =>
      if msg_sender e =? a
      then Some (AuditLog.mk a 0 (block_timestamp e) "REVOKE_ACCESS") else None
  | _ => None
  end.

Definition logged_actions (a : address) (os : list (Env * Call * result Retval))
  : list AuditLog.t :=
  omap (logged_action a) os.

(** The ids [lo+1 .. lo+n]. *)
Definition ids_from (lo : uint256) (n : nat) : list uint256 :=
  map (fun k => lo + N.of_nat k) (seq 1 n).

(** The [valid] component of what [checkAccess] returns. *)
Definition access_valid (e : Env) (s : State) (_patient _doctor : address) : bool :=
  match checkAccess e _patient _doctor s with
  | Ok (valid, _, _, _) => valid
  | Err _ => false
  end.

(** The four ways an actor is let through to a record. *)
Definition isAuthorized (e : Env) (s : State) (actor : address)
    (rec : MedicalRecord.t) : bool :=
  (actor =? MedicalRecord.patientAddress rec)
  || access_valid e s (MedicalRecord.patientAddress rec) actor
  || (emergencyMode s && UserRole_eqb (User.role (user_of s actor)) Doctor)
  || (actor =? admin s).

(** ** The states the state-changing functions end in when they succeed *)

Definition registered_state (e : Env) (_name : string) (_role : UserRole)
    (s : State) : State :=
  emit (UserRegistered (msg_sender e) _name _role)
    (set_user (msg_sender e)
       (User.mk (msg_sender e) _name _role true (block_timestamp e)) s).

Definition created_state (e : Env) (_ipfsHash _recordType _description : string)
    (s : State) : State :=
  let id := recordCounter s + 1 in
  emit (RecordCreated id (msg_sender e) _recordType)
    (push_auditTrail (msg_sender e)
       (AuditLog.mk (msg_sender e) id (block_timestamp e) "CREATE")
       (push_patientRecord (msg_sender e) id
          (set_record id
             (MedicalRecord.mk id (msg_sender e) _ipfsHash _recordType
                _description (block_timestamp e) true)
             (set_recordCounter id s)))).

Definition granted_state (e : Env) (_doctor : address) (expiresAt : uint256)
    (_purpose : string) (s : State) : State :=
  emit (AccessGranted (msg_sender e) _doctor expiresAt)
    (push_auditTrail (msg_sender e)
       (AuditLog.mk (msg_sender e) 0 (block_timestamp e) "GRANT_ACCESS")
       (set_permission (msg_sender e) _doctor
          (AccessPermission.mk _doctor (block_timestamp e) expiresAt true _purpose)
          s)).

Definition revoked_state (e : Env) (_doctor : address) (s : State) : State :=
  emit (AccessRevoked (msg_sender e) _doctor)
    (push_auditTrail (msg_sender e)
       (AuditLog.mk (msg_sender e) 0 (block_timestamp e) "REVOKE_ACCESS")
       (set_permission (msg_sender e) _doctor
          (AccessPermission.set_isActive false
             (permission_of s (msg_sender e) _doctor))
          s)).

Definition toggled_state (s : State) : State :=
  emit (EmergencyModeToggled (negb (emergencyMode s)))
    (set_emergencyMode (negb (emergencyMode s)) s).

(** [expiresAt] as [grantAccess] computes it, when the addition does not
    overflow. *)
Definition expiry_of (now duration : uint256) : uint256 :=
  if 0 <? duration then now + duration else 0.

Definition is_view (c : Call) : bool :=
  match c with
  | RegisterUser _ _ | CreateRecord _ _ _ | GrantAccess _ _ _ | RevokeAccess _
  | ToggleEmergencyMode => false
  | _ => true
  end.

(** What a committed call can amount to: a failure or a view leaves the
    state alone, and each state-changing function, when it succeeds, ends
    in the state named above. *)
Inductive call_outcome (e : Env) (s : State) : Call -> result Retval -> State -> Prop :=
| co_fail c er :
    call_outcome e s c (Err er) s
| co_view c v :
    is_view c = true ->
    call_outcome e s c (Ok v) s
| co_register n r :
    User.isRegistered (user_of s (msg_sender e)) = false ->
    r = Patient \/ r = Doctor ->
    call_outcome e s (RegisterUser n r) (Ok RUnit) (registered_state e n r s)
| co_create h t d :
    User.role (user_of s (msg_sender e)) = Patient ->
    recordCounter s < MAX_UINT256 ->
    call_outcome e s (CreateRecord h t d) (Ok (RUint (recordCounter s + 1)))
      (created_state e h t d s)
| co_grant d t p :
    call_outcome e s (GrantAccess d t p) (Ok RUnit)
      (granted_state e d (expiry_of (block_timestamp e) t) p s)
| co_revoke d :
    call_outcome e s (RevokeAccess d) (Ok RUnit) (revoked_state e d s)
| co_toggle :
    call_outcome e s ToggleEmergencyMode (Ok RUnit) (toggled_state s).

(** The invariant of the identity registry and the record store. *)
Record state_inv (deployer : address) (s : State) : Prop := mk_state_inv {
  inv_admin : admin s = deployer;
  inv_registered : forall a,
    User.isRegistered (user_of s a) = true <-> User.role (user_of s a) <> None_;
  inv_one_admin : forall a, User.role (user_of s a) = Admin <-> a = deployer;
  inv_counter : recordCounter s <= MAX_UINT256;
  inv_exists : forall id,
    MedicalRecord.exists_ (record_of s id) = true <-> 1 <= id <= recordCounter s;
  inv_recordId : forall id,
    MedicalRecord.exists_ (record_of s id) = true ->
    MedicalRecord.recordId (record_of s id) = id
}.

(** A record a doctor is let through to by a grant alone: it exists and
    its owner's grant to the doctor is valid now. *)
Definition accessible (e : Env) (s : State) (_doctor : address) (id : uint256) : bool :=
  MedicalRecord.exists_ (record_of s id)
  && access_valid e s (MedicalRecord.patientAddress (record_of s id)) _doctor.

(** A small history used to exercise the statements below: the admin
    deploys, a patient and two doctors register, the patient creates a
    record and grants the first doctor one day of access. *)
Module Scenario.
Definition deployment : Env := mkEnv 100 1000.
Definition patient : address := 1.
Definition doctor : address := 2.
Definition other_doctor : address := 3.
Definition setup : list (Env * Call) :=
  [ (mkEnv patient 1001, RegisterUser "P" Patient);
    (mkEnv doctor 1002, RegisterUser "D" Doctor);
    (mkEnv other_doctor 1003, RegisterUser "D2" Doctor);
    (mkEnv patient 1004, CreateRecord "Qm123" "Lab Report" "blood panel");
    (mkEnv patient 1005, GrantAccess doctor 86400 "consultation") ].
Definition state : State := run (constructor deployment) setup.
(** Later calls: the doctor and the patient at time 2000, the patient
    again at 3000, and the patient long after the grant has expired. *)
Definition doctor_calls : Env := mkEnv doctor 2000.
Definition patient_calls : Env := mkEnv patient 2000.
Definition patient_calls_again : Env := mkEnv patient 3000.
Definition patient_calls_late : Env := mkEnv patient 900000.
Definition regranted_once : State :=
  snd (grantAccess patient_calls doctor 600 "first" state).
Definition regranted_twice : State :=
  snd (grantAccess patient_calls_again doctor 0 "second" regranted_once).
End Scenario.

(** ** Further vocabulary: guards, invariants and traces *)

(** A committed call with the guards it passed: like [call_outcome], and
    each success carries every [require] and overflow check of its
    function. *)
Inductive call_detail (e : Env) (s : State) : Call -> result Retval -> State -> Prop :=
| cd_fail c er :
    call_detail e s c (Err er) s
| cd_view c v :
    is_view c = true ->
    call_detail e s c (Ok v) s
| cd_register n r :
    User.isRegistered (user_of s (msg_sender e)) = false ->
    r = Patient \/ r = Doctor ->
    nonempty n = true ->
    call_detail e s (RegisterUser n r) (Ok RUnit) (registered_state e n r s)
| cd_create h t d :
    User.isRegistered (user_of s (msg_sender e)) = true ->
    User.role (user_of s (msg_sender e)) = Patient ->
    nonempty h = true ->
    recordCounter s < MAX_UINT256 ->
    call_detail e s (CreateRecord h t d) (Ok (RUint (recordCounter s + 1)))
      (created_state e h t d s)
| cd_grant d t p :
    User.isRegistered (user_of s (msg_sender e)) = true ->
    User.role (user_of s (msg_sender e)) = Patient ->
    User.role (user_of s d) = Doctor ->
    User.isRegistered (user_of s d) = true ->
    t = 0 \/ (0 < t /\ block_timestamp e + t <= MAX_UINT256) ->
    call_detail e s (GrantAccess d t p) (Ok RUnit)
      (granted_state e d (expiry_of (block_timestamp e) t) p s)
| cd_revoke d :
    User.isRegistered (user_of s (msg_sender e)) = true ->
    User.role (user_of s (msg_sender e)) = Patient ->
    AccessPermission.isActive (permission_of s (msg_sender e) d) = true ->
    call_detail e s (RevokeAccess d) (Ok RUnit) (revoked_state e d s)
| cd_toggle :
    msg_sender e = admin s ->
    call_detail e s ToggleEmergencyMode (Ok RUnit) (toggled_state s).

(** A record that exists and belongs to [a]. *)
Definition owned_by (s : State) (a : address) (id : uint256) : bool :=
  MedicalRecord.exists_ (record_of s id)
  && (MedicalRecord.patientAddress (record_of s id) =? a).

(** The shape of an entry of [a]'s audit trail: logged under [a], and
    either the creation of one of [a]'s records at the record's creation
    time, or a grant or revocation with record id 0. *)
Definition audit_entry_ok (s : State) (a : address) (l : AuditLog.t) : Prop :=
  AuditLog.accessor l = a
  /\ ((AuditLog.action l = "CREATE"
       /\ owned_by s a (AuditLog.recordId l) = true
       /\ AuditLog.timestamp l
          = MedicalRecord.timestamp (record_of s (AuditLog.recordId l)))
      \/ (AuditLog.action l = "GRANT_ACCESS" /\ AuditLog.recordId l = 0)
      \/ (AuditLog.action l = "REVOKE_ACCESS" /\ AuditLog.recordId l = 0)).

(** What the tables hold in a reachable state, beyond [state_inv]. *)
Record tables_inv (s : State) : Prop := mk_tables_inv {
  tinv_users : forall a u,
    users s !! a = Some u ->
    User.isRegistered u = true /\ User.userAddress u = a
    /\ nonempty (User.name u) = true;
  tinv_owner : forall id,
    MedicalRecord.exists_ (record_of s id) = true ->
    User.role (user_of s (MedicalRecord.patientAddress (record_of s id))) = Patient;
  tinv_index : forall a,
    patientRecords_of s a
      = List.filter (owned_by s a) (ids_from 0 (N.to_nat (recordCounter s)));
  tinv_permission : forall p d x,
    permissions s !! (p, d) = Some x ->
    User.role (user_of s p) = Patient
    /\ User.role (user_of s d) = Doctor
    /\ AccessPermission.doctorAddress x = d
    /\ (AccessPermission.expiresAt x = 0
        \/ AccessPermission.grantedAt x < AccessPermission.expiresAt x);
  tinv_audit : forall a,
    Forall (audit_entry_ok s a) (auditTrail_of s a)
    /\ (auditTrail_of s a <> [] -> User.role (user_of s a) = Patient)
}.

(** The event a call emits, from the state it is made in: one per
    successful state-changing call, none otherwise. *)
Definition emitted_by (s : State) (tx : Env * Call) (r : result Retval)
  : option Event :=
  match tx, r with
  | (e, RegisterUser n role), Ok _ => Some (UserRegistered (msg_sender e) n role)
  | (e, CreateRecord _ t _), Ok (RUint id) => Some (RecordCreated id (msg_sender e) t)
  | (e, GrantAccess d t _), Ok _ =>
      Some (AccessGranted (msg_sender e) d (expiry_of (block_timestamp e) t))
  | (e, RevokeAccess d), Ok _ => Some (AccessRevoked (msg_sender e) d)
  | (e, ToggleEmergencyMode), Ok _ =>
      Some (EmergencyModeToggled (negb (emergencyMode s)))
  | _, _ => None
  end.

Fixpoint expected_events (s : State) (txs : list (Env * Call)) : list Event :=
  match txs with
  | [] => []
  | tx :: txs' =>
      option_list (emitted_by s tx (fst (call (fst tx) (snd tx) s)))
        ++ expected_events (step s tx) txs'
  end.

Definition is_RecordAccessed (ev : Event) : bool :=
  match ev with
  | RecordAccessed _ _ => true
  | _ => false
  end.

(** The calls of a history that are [toggleEmergencyMode] sent by [a]. *)
Definition is_toggle_by (a : address) (tx : Env * Call) : bool :=
  match snd tx with
  | ToggleEmergencyMode => msg_sender (fst tx) =? a
  | _ => false
  end.

Definition toggles_by (a : address) (txs : list (Env * Call)) : nat :=
  length (List.filter (is_toggle_by a) txs).

(** Whether a history holds a successful [grantAccess] from [p] to [d]. *)
Definition is_grant (p d : address) (o : Env * Call * result Retval) : bool :=
  match o with
  | (e, GrantAccess d' _ _, Ok _) => (msg_sender e =? p) && (d' =? d)
  | _ => false
  end.

(** A successful call of a state-changing function. *)
Definition is_commit (o : Env * Call * result Retval) : bool :=
  match o with
  | (_, c, Ok _) => negb (is_view c)
  | _ => false
  end.

(** A history whose block times never go back, starting from time [T]. *)
Fixpoint chronological (T : uint256) (txs : list (Env * Call)) : Prop :=
  match txs with
  | [] => True
  | tx :: txs' =>
      T <= block_timestamp (fst tx) /\ chronological (block_timestamp (fst tx)) txs'
  end.

(** The records' creation times are at most [T] and go up with the ids. *)
Definition records_in_time (T : uint256) (s : State) : Prop :=
  (forall id, MedicalRecord.exists_ (record_of s id) = true ->
              MedicalRecord.timestamp (record_of s id) <= T)
  /\ (forall id1 id2, id1 <= id2 ->
        MedicalRecord.exists_ (record_of s id1) = true ->
        MedicalRecord.exists_ (record_of s id2) = true ->
        MedicalRecord.timestamp (record_of s id1)
          <= MedicalRecord.timestamp (record_of s id2)).

(** More calls on the scenario, for the further properties. *)
Module Cases.
Definition newcomer : address := 7.
Definition newcomer_calls : Env := mkEnv newcomer 5000.
Definition admin_calls : Env := mkEnv 100 6000.
Definition other_doctor_calls : Env := mkEnv Scenario.other_doctor 7000.
Definition doctor_calls_late : Env := mkEnv Scenario.doctor 900000.
Definition later : list (Env * Call) :=
  [ (admin_calls, ToggleEmergencyMode);
    (Scenario.patient_calls_again, CreateRecord "Qm456" "X-Ray" "left arm") ].
End Cases.

(** ** The frontend's helpers

    From the [App] component, which calls the contract: [formatAddress]
    and [getRoleName]. A JavaScript string of one-byte characters (an
    address is "0x" and 40 hexadecimal digits) is a [string]; the role
    passed to [getRoleName] is [Number(info[1])], an integer. *)
Module App.

(** [s.substring(start, end)]: both indices are clamped to the length,
    swapped if out of order; [end] omitted means the length. *)
Definition substring (s : string) (start : nat) (end_ : option nat) : string :=
  let len := String.length s in
  let a := Nat.min start len in
  let b := Nat.min (default len end_) len in
  String.substring (Nat.min a b) (Nat.max a b - Nat.min a b) s.

Definition formatAddress (address : string) : string :=
  String.append (substring address 0 (Some 6%nat))
    (String.append "..." (substring address 38 None)).

Definition roles : list string := ["None"; "Patient"; "Doctor"; "Admin"].

(** [roles[role] || 'Unknown']: an index outside the array reads
    [undefined], and [undefined] and the empty string are falsy. *)
Definition getRoleName (role : Z) : string :=
  match (if (0 <=? role)%Z then roles !! Z.to_nat role else None) with
  | Some name => if String.eqb name "" then "Unknown" else name
  | None => "Unknown"
  end.

End App.

(** The number an enum value is returned as, and its name in the
    contract. *)
Definition UserRole_ordinal (r : UserRole) : Z :=
  match r with
  | None_ => 0
  | Patient => 1
  | Doctor => 2
  | Admin => 3
  end.

Definition UserRole_name (r : UserRole) : string :=
  match r with
  | None_ => "None"
  | Patient => "Patient"
  | Doctor => "Doctor"
  | Admin => "Admin"
  end.

(** The getter the compiler generates for the public mapping [records]:
    a view, open to every caller, that returns the members of the stored
    struct. *)
Definition records_getter (id : uint256) (s : State)
  : result (uint256 * address * string * string * string * uint256 * bool) :=
  let r := record_of s id in
  Ok (MedicalRecord.recordId r, MedicalRecord.patientAddress r,
      MedicalRecord.ipfsHash r, MedicalRecord.recordType r,
      MedicalRecord.description r, MedicalRecord.timestamp r,
      MedicalRecord.exists_ r).

(** A history with more records than a memory array can have elements:
    the scenario, with its one record, followed by [2^64 - 1] further
    [createRecord] calls of the patient. *)
Module Flood.
Definition one_more : Env * Call :=
  (Scenario.patient_calls_again, CreateRecord "Qm" "Scan" "").
Definition history : list (Env * Call) :=
  Scenario.setup ++ replicate (N.to_nat MAX_UINT64) one_more.
Definition state : State := run (constructor Scenario.deployment) history.
End Flood.

(** * Properties *)

(** ** Basic facts *)

Lemma UserRole_eqb_eq a b : UserRole_eqb a b = true <-> a = b.
Proof. destruct a, b; simpl; split; congruence. Qed.

Lemma UserRole_eqb_neq a b : UserRole_eqb a b = false <-> a <> b.
Proof. destruct a, b; simpl; split; congruence. Qed.

Lemma hasAccess_valid e p d id s :
  _hasAccess e p d id s = access_valid e s p d.
Proof.
  unfold _hasAccess, access_valid, checkAccess.
  destruct (AccessPermission.isActive _); simpl; [|reflexivity].
  destruct (N.eqb_spec (AccessPermission.expiresAt (permission_of s p d)) 0) as [-> | Hne].
  - reflexivity.
  - replace (0 <? _) with true by (symmetry; apply N.ltb_lt; lia).
    simpl. rewrite N.leb_antisym. destruct (_ <? _); reflexivity.
Qed.

(** ** Closed forms of the state-changing functions

    Each function either stops at one of its guards, in the state it was
    called in, or runs all its writes. *)

Ltac exec_simpl :=
  unfold bind, view, requireS, require, gets, modify, ret, onlyRegistered,
    onlyPatient, onlyDoctor, onlyAdmin, recordExists, _addAuditLog; simpl.

Lemma registerUser_eq e n r s :
  registerUser e n r s =
    if User.isRegistered (user_of s (msg_sender e)) then (Err AlreadyRegistered, s)
    else if negb (UserRole_eqb r Patient || UserRole_eqb r Doctor)
    then (Err InvalidRole, s)
    else if negb (nonempty n) then (Err EmptyName, s)
    else (Ok tt, registered_state e n r s).
Proof.
  unfold registerUser. exec_simpl.
  destruct (User.isRegistered _); simpl; [reflexivity|].
  destruct (_ || _); simpl; [|reflexivity].
  destruct (nonempty n); reflexivity.
Qed.

Lemma createRecord_eq e h t d s :
  createRecord e h t d s =
    if negb (User.isRegistered (user_of s (msg_sender e))) then (Err NotRegistered, s)
    else if negb (UserRole_eqb (User.role (user_of s (msg_sender e))) Patient)
    then (Err OnlyPatients, s)
    else if negb (nonempty h) then (Err EmptyPayloadReference, s)
    else if negb (recordCounter s + 1 <=? MAX_UINT256) then (Err (Panic 0x11), s)
    else (Ok (recordCounter s + 1), created_state e h t d s).
Proof.
  unfold createRecord. exec_simpl.
  destruct (User.isRegistered _); simpl; [|reflexivity].
  destruct (UserRole_eqb _ _); simpl; [|reflexivity].
  destruct (nonempty h); simpl; [|reflexivity].
  unfold checked_add.
  destruct (_ <=? _); reflexivity.
Qed.

Lemma grantAccess_eq e d t p s :
  grantAccess e d t p s =
    if negb (User.isRegistered (user_of s (msg_sender e))) then (Err NotRegistered, s)
    else if negb (UserRole_eqb (User.role (user_of s (msg_sender e))) Patient)
    then (Err OnlyPatients, s)
    else if negb (UserRole_eqb (User.role (user_of s d)) Doctor)
    then (Err GranteeNotDoctor, s)
    else if negb (User.isRegistered (user_of s d)) then (Err GranteeNotRegistered, s)
    else if (0 <? t) && negb (block_timestamp e + t <=? MAX_UINT256)
    then (Err (Panic 0x11), s)
    else (Ok tt, granted_state e d (expiry_of (block_timestamp e) t) p s).
Proof.
  unfold grantAccess. exec_simpl.
  destruct (User.isRegistered (user_of s (msg_sender e))); simpl; [|reflexivity].
  destruct (UserRole_eqb (User.role (user_of s (msg_sender e))) Patient); simpl;
    [|reflexivity].
  destruct (UserRole_eqb _ Doctor); simpl; [|reflexivity].
  destruct (User.isRegistered (user_of s d)); simpl; [|reflexivity].
  unfold expiry_of, checked_add.
  destruct (0 <? t); simpl; [|reflexivity].
  destruct (_ <=? _); reflexivity.
Qed.

Lemma revokeAccess_eq e d s :
  revokeAccess e d s =
    if negb (User.isRegistered (user_of s (msg_sender e))) then (Err NotRegistered, s)
    else if negb (UserRole_eqb (User.role (user_of s (msg_sender e))) Patient)
    then (Err OnlyPatients, s)
    else if negb (AccessPermission.isActive (permission_of s (msg_sender e) d))
    then (Err NoActivePermission, s)
    else (Ok tt, revoked_state e d s).
Proof.
  unfold revokeAccess. exec_simpl.
  destruct (User.isRegistered _); simpl; [|reflexivity].
  destruct (UserRole_eqb _ _); simpl; [|reflexivity].
  destruct (AccessPermission.isActive _); reflexivity.
Qed.

Lemma toggleEmergencyMode_eq e s :
  toggleEmergencyMode e s =
    if msg_sender e =? admin s then (Ok tt, toggled_state s)
    else (Err AdminOnly, s).
Proof.
  unfold toggleEmergencyMode. exec_simpl.
  destruct (_ =? _); reflexivity.
Qed.

(** ** Calls, case by case *)

Lemma call_outcome_intro e c s :
  call_outcome e s c (fst (call e c s)) (snd (call e c s)).
Proof.
  unfold call.
  destruct c; simpl; unfold emap, bind, view, rmap, rbind, ret.
  - rewrite registerUser_eq.
    destruct (User.isRegistered _) eqn:Hreg; simpl; [constructor|].
    destruct (_ || _) eqn:Hrole; simpl; [|constructor].
    destruct (nonempty _); simpl; [|constructor].
    constructor; [assumption|].
    apply orb_true_iff in Hrole.
    destruct Hrole as [H|H]; apply UserRole_eqb_eq in H; auto.
  - simpl. apply co_view. reflexivity.
  - rewrite createRecord_eq.
    destruct (User.isRegistered _); simpl; [|constructor].
    destruct (UserRole_eqb _ _) eqn:Hrole; simpl; [|constructor].
    destruct (nonempty _); simpl; [|constructor].
    destruct (_ <=? _) eqn:Hc; simpl; [|constructor].
    constructor.
    + apply UserRole_eqb_eq. assumption.
    + apply N.leb_le in Hc. lia.
  - simpl. apply co_view. reflexivity.
  - destruct (getDoctorAccessibleRecords _ _ _); simpl;
      [apply co_view; reflexivity | constructor].
  - destruct (getRecord _ _ _); simpl; [apply co_view; reflexivity | constructor].
  - rewrite grantAccess_eq.
    destruct (User.isRegistered (user_of s (msg_sender e))); simpl; [|constructor].
    destruct (UserRole_eqb (User.role (user_of s (msg_sender e))) Patient); simpl;
      [|constructor].
    destruct (UserRole_eqb _ Doctor); simpl; [|constructor].
    destruct (User.isRegistered (user_of s _doctor)); simpl; [|constructor].
    destruct (_ && _); simpl; constructor.
  - rewrite revokeAccess_eq.
    destruct (User.isRegistered _); simpl; [|constructor].
    destruct (UserRole_eqb _ _); simpl; [|constructor].
    destruct (AccessPermission.isActive _); simpl; constructor.
  - simpl. apply co_view. reflexivity.
  - simpl. apply co_view. reflexivity.
  - rewrite toggleEmergencyMode_eq.
    destruct (_ =? _); simpl; constructor.
  - simpl. apply co_view. reflexivity.
Qed.

(** Every guard comes before every write: a failing body stops in the
    state it started in, so the roll-back of [call] has nothing to undo. *)
Lemma dispatch_fail_no_write e c s er s' :
  dispatch e c s = (Err er, s') -> s' = s.
Proof.
  destruct c; simpl; unfold emap, bind, view, rmap, rbind, ret.
  - rewrite registerUser_eq.
    repeat (match goal with |- context [if ?b then _ else _] => destruct b end;
            simpl); congruence.
  - congruence.
  - rewrite createRecord_eq.
    repeat (match goal with |- context [if ?b then _ else _] => destruct b end;
            simpl); congruence.
  - congruence.
  - destruct (getDoctorAccessibleRecords _ _ _); congruence.
  - destruct (getRecord _ _ _); congruence.
  - rewrite grantAccess_eq.
    repeat (match goal with |- context [if ?b then _ else _] => destruct b end;
            simpl); congruence.
  - rewrite revokeAccess_eq.
    repeat (match goal with |- context [if ?b then _ else _] => destruct b end;
            simpl); congruence.
  - congruence.
  - congruence.
  - rewrite toggleEmergencyMode_eq.
    repeat (match goal with |- context [if ?b then _ else _] => destruct b end;
            simpl); congruence.
  - congruence.
Qed.

(** ** Reading the mappings after a write *)

Lemma user_of_registered_state e n r s a :
  user_of (registered_state e n r s) a =
    if decide (a = msg_sender e)
    then User.mk (msg_sender e) n r true (block_timestamp e)
    else user_of s a.
Proof.
  unfold user_of, registered_state; simpl.
  case_decide as H.
  - subst a. rewrite lookup_insert_eq. reflexivity.
  - rewrite lookup_insert_ne by congruence. reflexivity.
Qed.

Lemma record_of_created_state e h t d s id :
  record_of (created_state e h t d s) id =
    if decide (id = recordCounter s + 1)
    then MedicalRecord.mk (recordCounter s + 1) (msg_sender e) h t d
           (block_timestamp e) true
    else record_of s id.
Proof.
  unfold record_of, created_state; simpl.
  case_decide as H.
  - subst id. rewrite lookup_insert_eq. reflexivity.
  - rewrite lookup_insert_ne by congruence. reflexivity.
Qed.

Lemma permission_of_set_permission p d x s p' d' :
  permission_of (set_permission p d x s) p' d' =
    if decide ((p', d') = (p, d)) then x else permission_of s p' d'.
Proof.
  unfold permission_of, set_permission; simpl.
  case_decide as H.
  - rewrite H, lookup_insert_eq. reflexivity.
  - rewrite lookup_insert_ne by congruence. reflexivity.
Qed.

Lemma auditTrail_of_push a l s b :
  auditTrail_of (push_auditTrail a l s) b =
    if decide (b = a) then auditTrail_of s a ++ [l] else auditTrail_of s b.
Proof.
  unfold auditTrail_of at 1, push_auditTrail; simpl.
  case_decide as H.
  - subst b. rewrite lookup_insert_eq. reflexivity.
  - rewrite lookup_insert_ne by congruence. reflexivity.
Qed.

(** ** The invariant holds in every reachable state *)

Lemma constructor_inv e0 : state_inv (msg_sender e0) (constructor e0).
Proof.
  split; simpl; try reflexivity.
  - intros a. unfold user_of, constructor; simpl.
    destruct (decide (a = msg_sender e0)) as [-> | Hne].
    + rewrite lookup_insert_eq; simpl. split; [discriminate | reflexivity].
    + rewrite lookup_insert_ne, lookup_empty by congruence; simpl.
      split; [discriminate | congruence].
  - intros a. unfold user_of, constructor; simpl.
    destruct (decide (a = msg_sender e0)) as [-> | Hne].
    + rewrite lookup_insert_eq; simpl. split; reflexivity.
    + rewrite lookup_insert_ne, lookup_empty by congruence; simpl.
      split; [discriminate | congruence].
  - unfold MAX_UINT256. lia.
  - intros id. unfold record_of; simpl. rewrite lookup_empty; simpl.
    split; [discriminate | lia].
  - intros id. unfold record_of; simpl. rewrite lookup_empty; simpl.
    discriminate.
Qed.

Lemma call_outcome_inv dep e s c r s' :
  call_outcome e s c r s' -> state_inv dep s -> state_inv dep s'.
Proof.
  intros Hco [Hadm Hreg Hone Hcnt Hex Hid].
  destruct Hco as [ | | n r Hunreg Hr | h t d Hrole Hlt | | | ];
    try (split; assumption).
  - (* registerUser *)
    split; simpl; try assumption.
    + intros a. rewrite user_of_registered_state.
      case_decide; simpl; [|apply Hreg].
      split; [destruct Hr; subst r; discriminate | reflexivity].
    + intros a. rewrite user_of_registered_state.
      case_decide as Ha; simpl; [|apply Hone].
      subst a. split.
      * destruct Hr; subst r; discriminate.
      * intros Hd. exfalso.
        assert (Hin : User.isRegistered (user_of s (msg_sender e)) = true).
        { apply Hreg. rewrite (proj2 (Hone _) Hd). discriminate. }
        congruence.
  - (* createRecord *)
    split; simpl; try assumption.
    + lia.
    + intros id. rewrite record_of_created_state.
      case_decide as Hn; simpl.
      * subst id. split; [lia | reflexivity].
      * rewrite Hex. lia.
    + intros id. rewrite record_of_created_state.
      case_decide as Hn; simpl; [congruence | apply Hid].
Qed.

Lemma step_inv dep s tx : state_inv dep s -> state_inv dep (step s tx).
Proof.
  destruct tx as [e c]. unfold step; simpl.
  apply (call_outcome_inv dep e s c _ _ (call_outcome_intro e c s)).
Qed.

Lemma run_inv dep txs : forall s, state_inv dep s -> state_inv dep (run s txs).
Proof.
  induction txs as [|tx txs IH]; intros s Hs; simpl; [assumption|].
  apply IH, step_inv, Hs.
Qed.

Lemma reachable_inv e0 txs : state_inv (msg_sender e0) (run (constructor e0) txs).
Proof. apply run_inv, constructor_inv. Qed.

(** ** Histories *)

Lemma run_app txs1 : forall s txs2, run s (txs1 ++ txs2) = run (run s txs1) txs2.
Proof.
  induction txs1 as [|tx txs1 IH]; intros s txs2; simpl; [reflexivity|].
  apply IH.
Qed.

Lemma ids_from_S lo n : ids_from lo (S n) = (lo + 1) :: ids_from (lo + 1) n.
Proof.
  unfold ids_from. simpl. f_equal.
  rewrite <- seq_shift, map_map.
  apply map_ext. intros k. lia.
Qed.

Lemma elem_of_ids_from id n : forall lo,
  id ∈ ids_from lo n <-> lo < id <= lo + N.of_nat n.
Proof.
  induction n as [|n IH]; intros lo.
  - unfold ids_from; simpl. rewrite elem_of_nil. lia.
  - rewrite ids_from_S, elem_of_cons, IH. lia.
Qed.

Lemma ids_from_sorted n : forall lo, StronglySorted N.lt (ids_from lo n).
Proof.
  induction n as [|n IH]; intros lo.
  - constructor.
  - rewrite ids_from_S. constructor; [apply IH|].
    apply Forall_forall. intros x Hx.
    apply elem_of_ids_from in Hx. lia.
Qed.

Lemma ids_from_0 n : ids_from 0 n = map N.of_nat (seq 1 n).
Proof. unfold ids_from. apply map_ext. intros k. lia. Qed.

(** What one call contributes to the created ids, the record counter and
    an actor's audit trail. *)
Lemma call_outcome_created e s c r s' :
  call_outcome e s c r s' ->
  (created_id (e, c, r) = None /\ recordCounter s' = recordCounter s)
  \/ (created_id (e, c, r) = Some (recordCounter s + 1)
      /\ recordCounter s' = recordCounter s + 1).
Proof.
  intros [c' er | c' v Hv | | | | | ]; simpl; auto.
  - left. split; [|reflexivity]. destruct c'; reflexivity.
  - left. split; [|reflexivity]. destruct c'; try discriminate; reflexivity.
Qed.

Lemma auditTrail_of_logged a e l s s0 :
  auditTrail_of s0 (msg_sender e) = auditTrail_of s (msg_sender e) ->
  auditTrail_of s0 a = auditTrail_of s a ->
  auditTrail_of (push_auditTrail (msg_sender e) l s0) a =
    auditTrail_of s a ++ option_list (if msg_sender e =? a then Some l else None).
Proof.
  intros Hsender Ha. rewrite auditTrail_of_push.
  destruct (N.eqb_spec (msg_sender e) a) as [Heq | Hne]; case_decide;
    try congruence; simpl.
  - subst a. rewrite Hsender. reflexivity.
  - rewrite app_nil_r. assumption.
Qed.

Lemma call_outcome_logged a e s c r s' :
  call_outcome e s c r s' ->
  auditTrail_of s' a = auditTrail_of s a ++ option_list (logged_action a (e, c, r)).
Proof.
  intros [c' er | c' v Hv | | | | | ]; simpl.
  - destruct c'; simpl; rewrite app_nil_r; reflexivity.
  - destruct c'; try discriminate; simpl; rewrite app_nil_r; reflexivity.
  - rewrite app_nil_r. reflexivity.
  - unfold created_state. cbv zeta.
    change (auditTrail_of (emit ?ev ?x) a) with (auditTrail_of x a).
    rewrite (auditTrail_of_logged a e _ s) by reflexivity.
    destruct (N.eqb_spec (msg_sender e) a) as [<- | Hne]; reflexivity.
  - unfold granted_state.
    change (auditTrail_of (emit ?ev ?x) a) with (auditTrail_of x a).
    rewrite (auditTrail_of_logged a e _ s) by reflexivity.
    destruct (N.eqb_spec (msg_sender e) a) as [<- | Hne]; reflexivity.
  - unfold revoked_state.
    change (auditTrail_of (emit ?ev ?x) a) with (auditTrail_of x a).
    rewrite (auditTrail_of_logged a e _ s) by reflexivity.
    destruct (N.eqb_spec (msg_sender e) a) as [<- | Hne]; reflexivity.
  - rewrite app_nil_r. reflexivity.
Qed.

Lemma omap_cons_option_list {A B} (f : A -> option B) x l :
  omap f (x :: l) = option_list (f x) ++ omap f l.
Proof. simpl. destruct (f x); reflexivity. Qed.

Lemma created_ids_run txs : forall s,
  created_ids (outcomes s txs)
    = ids_from (recordCounter s) (length (created_ids (outcomes s txs)))
  /\ recordCounter (run s txs)
    = recordCounter s + N.of_nat (length (created_ids (outcomes s txs))).
Proof.
  induction txs as [|[e c] txs IH]; intros s.
  - simpl. split; [reflexivity | lia].
  - destruct (IH (step s (e, c))) as [IH1 IH2].
    change (run s ((e, c) :: txs)) with (run (step s (e, c)) txs).
    replace (created_ids (outcomes s ((e, c) :: txs)))
      with (option_list (created_id (e, c, fst (call e c s)))
              ++ created_ids (outcomes (step s (e, c)) txs))
      by (symmetry; apply omap_cons_option_list).
    assert (Hc : recordCounter (step s (e, c)) = recordCounter (snd (call e c s)))
      by reflexivity.
    destruct (call_outcome_created _ _ _ _ _ (call_outcome_intro e c s))
      as [[Hn Hs] | [Hn Hs]]; rewrite Hn; rewrite Hs in Hc; rewrite Hc in *;
      simpl.
    + split; assumption.
    + rewrite ids_from_S. split.
      * f_equal. assumption.
      * rewrite IH2. lia.
Qed.

Lemma logged_actions_run a txs : forall s,
  auditTrail_of (run s txs) a
    = auditTrail_of s a ++ logged_actions a (outcomes s txs).
Proof.
  induction txs as [|[e c] txs IH]; intros s.
  - simpl. rewrite app_nil_r. reflexivity.
  - change (run s ((e, c) :: txs)) with (run (step s (e, c)) txs).
    replace (logged_actions a (outcomes s ((e, c) :: txs)))
      with (option_list (logged_action a (e, c, fst (call e c s)))
              ++ logged_actions a (outcomes (step s (e, c)) txs))
      by (symmetry; apply omap_cons_option_list).
    rewrite IH.
    change (auditTrail_of (step s (e, c)) a)
      with (auditTrail_of (snd (call e c s)) a).
    rewrite (call_outcome_logged a _ _ _ _ _ (call_outcome_intro e c s)).
    rewrite <- app_assoc. reflexivity.
Qed.

Lemma auditTrail_of_constructor e0 a : auditTrail_of (constructor e0) a = [].
Proof. unfold auditTrail_of; simpl. rewrite lookup_empty. reflexivity. Qed.

Lemma created_iff_exists e0 txs id :
  id ∈ created_ids (outcomes (constructor e0) txs)
  <-> MedicalRecord.exists_ (record_of (run (constructor e0) txs) id) = true.
Proof.
  destruct (created_ids_run txs (constructor e0)) as [Hids Hcnt].
  rewrite Hids, elem_of_ids_from, <- Hcnt.
  rewrite (inv_exists _ _ (reachable_inv e0 txs)).
  simpl. lia.
Qed.

(** A stored record is never written again. *)
Lemma call_outcome_record_stable dep e s c r s' id :
  call_outcome e s c r s' -> state_inv dep s ->
  MedicalRecord.exists_ (record_of s id) = true ->
  record_of s' id = record_of s id.
Proof.
  intros Hco Hinv Hex.
  destruct Hco; try reflexivity.
  rewrite record_of_created_state.
  case_decide as Hid; [|reflexivity].
  apply (inv_exists _ _ Hinv) in Hex. lia.
Qed.

Lemma run_record_stable dep id txs : forall s,
  state_inv dep s ->
  MedicalRecord.exists_ (record_of s id) = true ->
  record_of (run s txs) id = record_of s id.
Proof.
  induction txs as [|[e c] txs IH]; intros s Hinv Hex; simpl; [reflexivity|].
  assert (Hstep : record_of (step s (e, c)) id = record_of s id).
  { apply (call_outcome_record_stable dep e s c _ _ id (call_outcome_intro e c s));
      assumption. }
  rewrite IH; [assumption | apply step_inv; assumption | congruence].
Qed.

(** A registered user's entry is never written again. *)
Lemma call_outcome_user_stable e s c r s' a :
  call_outcome e s c r s' ->
  User.isRegistered (user_of s a) = true ->
  user_of s' a = user_of s a.
Proof.
  intros Hco Hreg.
  destruct Hco; try reflexivity.
  rewrite user_of_registered_state.
  case_decide as Ha; [|reflexivity].
  subst a. congruence.
Qed.

Lemma run_user_stable a txs : forall s,
  User.isRegistered (user_of s a) = true ->
  user_of (run s txs) a = user_of s a.
Proof.
  induction txs as [|[e c] txs IH]; intros s Hreg; simpl; [reflexivity|].
  assert (Hstep : user_of (step s (e, c)) a = user_of s a).
  { apply (call_outcome_user_stable e s c _ _ a (call_outcome_intro e c s)).
    assumption. }
  rewrite IH; [assumption | congruence].
Qed.

(** ** The two loops of [getDoctorAccessibleRecords] *)

Lemma scan_records_unfold fuel e s d i acc count :
  scan_records fuel e s d i acc count =
    if i <=? recordCounter s then
      match fuel with
      | O => Err OutOfGas
      | S fuel' =>
          let? (acc', count') :=
            if MedicalRecord.exists_ (record_of s i) then
              if _hasAccess e (MedicalRecord.patientAddress (record_of s i)) d i s then
                let? a := array_set acc count i in
                let? c := checked_add count 1 in
                Ok (a, c)
              else Ok (acc, count)
            else Ok (acc, count) in
          let? i' := checked_add i 1 in
          scan_records fuel' e s d i' acc' count'
      end
    else Ok (acc, count).
Proof. destruct fuel; reflexivity. Qed.

Lemma copy_records_unfold fuel acc count i r :
  copy_records fuel acc count i r =
    if i <? count then
      match fuel with
      | O => Err OutOfGas
      | S fuel' =>
          let? v := array_get acc i in
          let? r' := array_set r i v in
          let? i' := checked_add i 1 in
          copy_records fuel' acc count i' r'
      end
    else Ok r.
Proof. destruct fuel; reflexivity. Qed.

Lemma checked_add_ok a b : a + b <= MAX_UINT256 -> checked_add a b = Ok (a + b).
Proof.
  intros H. unfold checked_add.
  destruct (N.leb_spec (a + b) MAX_UINT256); [reflexivity | lia].
Qed.

Lemma array_set_ok (a : list uint256) i v :
  (N.to_nat i < length a)%nat -> array_set a i v = Ok (<[N.to_nat i := v]> a).
Proof.
  intros H. unfold array_set.
  destruct (N.ltb_spec i (N.of_nat (length a))); [reflexivity | lia].
Qed.

Lemma take_S_insert (l : list uint256) n x :
  (n < length l)%nat -> take (S n) (<[n := x]> l) = take n l ++ [x].
Proof.
  intros H.
  rewrite (take_S_r _ _ x) by (apply list_lookup_insert_eq; exact H).
  rewrite take_insert_ge by lia. reflexivity.
Qed.

Lemma scan_records_spec e s d n : forall fuel i acc count,
  i + N.of_nat n = recordCounter s + 1 ->
  (n <= fuel)%nat ->
  recordCounter s < MAX_UINT256 ->
  count < i ->
  length acc = N.to_nat (recordCounter s) ->
  exists acc',
    let found := List.filter (accessible e s d) (ids_from (i - 1) n) in
    scan_records fuel e s d i acc count
      = Ok (acc', count + N.of_nat (length found))
    /\ length acc' = length acc
    /\ take (N.to_nat count + length found)%nat acc'
       = take (N.to_nat count) acc ++ found.
Proof.
  induction n as [|n IH]; intros fuel i acc count Hi Hfuel Hmax Hcount Hlen;
    rewrite scan_records_unfold.
  - destruct (N.leb_spec i (recordCounter s)); [lia|].
    exists acc. simpl. rewrite N.add_0_r, Nat.add_0_r, app_nil_r. auto.
  - destruct (N.leb_spec i (recordCounter s)); [|lia].
    destruct fuel as [|fuel]; [lia|].
    rewrite ids_from_S. replace (i - 1 + 1) with i by lia.
    specialize (IH fuel (i + 1)).
    replace (i + 1 - 1) with i in IH by lia.
    simpl List.filter.
    set (found := List.filter (accessible e s d) (ids_from i n)) in *.
    unfold accessible. rewrite hasAccess_valid.
    destruct (MedicalRecord.exists_ (record_of s i)); simpl andb;
      [destruct (access_valid e s _ d)|].
    + rewrite array_set_ok by lia. simpl rbind.
      rewrite checked_add_ok by lia. simpl rbind.
      rewrite checked_add_ok by lia. simpl rbind.
      destruct (IH (<[N.to_nat count := i]> acc) (count + 1))
        as (acc' & Hrun & Hlen' & Htake); try lia.
      { rewrite length_insert. assumption. }
      exists acc'. cbv zeta in *. rewrite Hrun. simpl length. split; [|split].
      * f_equal. f_equal. lia.
      * rewrite Hlen', length_insert. reflexivity.
      * replace (N.to_nat count + S (length found))%nat
          with (N.to_nat (count + 1) + length found)%nat by lia.
        rewrite Htake.
        replace (N.to_nat (count + 1)) with (S (N.to_nat count)) by lia.
        rewrite take_S_insert by lia.
        rewrite <- app_assoc. reflexivity.
    + simpl rbind. rewrite checked_add_ok by lia. simpl rbind.
      destruct (IH acc count) as (acc' & Hrun & Hlen' & Htake); try lia.
      exists acc'. cbv zeta in *. auto.
    + simpl rbind. rewrite checked_add_ok by lia. simpl rbind.
      destruct (IH acc count) as (acc' & Hrun & Hlen' & Htake); try lia.
      exists acc'. cbv zeta in *. auto.
Qed.

Lemma copy_records_spec acc count n : forall fuel i r,
  i + N.of_nat n = count ->
  (n <= fuel)%nat ->
  count < MAX_UINT256 ->
  (N.to_nat count <= length acc)%nat ->
  length r = N.to_nat count ->
  copy_records fuel acc count i r
    = Ok (take (N.to_nat i) r ++ drop (N.to_nat i) (take (N.to_nat count) acc)).
Proof.
  induction n as [|n IH]; intros fuel i r Hi Hfuel Hmax Hacc Hlen;
    rewrite copy_records_unfold.
  - destruct (N.ltb_spec i count); [lia|].
    rewrite drop_ge by (rewrite length_take; lia).
    rewrite take_ge by lia. rewrite app_nil_r. reflexivity.
  - destruct (N.ltb_spec i count); [|lia].
    destruct fuel as [|fuel]; [lia|].
    destruct (lookup_lt_is_Some_2 acc (N.to_nat i)) as [v Hv]; [lia|].
    unfold array_get. rewrite Hv. simpl rbind.
    rewrite array_set_ok by lia. simpl rbind.
    rewrite checked_add_ok by lia. simpl rbind.
    rewrite IH; try lia; [|rewrite length_insert; assumption].
    f_equal.
    replace (N.to_nat (i + 1)) with (S (N.to_nat i)) by lia.
    rewrite take_S_insert by lia.
    rewrite <- app_assoc. f_equal.
    symmetry. apply drop_S.
    rewrite lookup_take_lt by lia. assumption.
Qed.

Lemma new_array_ok n :
  n <= MAX_UINT64 -> new_array n = Ok (replicate (N.to_nat n) 0).
Proof.
  intros H. unfold new_array.
  destruct (N.leb_spec n MAX_UINT64); [reflexivity | lia].
Qed.

Lemma MAX_UINT64_lt : MAX_UINT64 < MAX_UINT256.
Proof. reflexivity. Qed.

Lemma getDoctorAccessibleRecords_filter e s :
  User.role (user_of s (msg_sender e)) = Doctor ->
  recordCounter s <= MAX_UINT64 ->
  getDoctorAccessibleRecords e (msg_sender e) s
    = Ok (List.filter (accessible e s (msg_sender e))
            (ids_from 0 (N.to_nat (recordCounter s)))).
Proof.
  intros Hrole Hmax. pose proof MAX_UINT64_lt as H64.
  unfold getDoctorAccessibleRecords, onlyDoctor, require.
  rewrite Hrole, N.eqb_refl. simpl rbind.
  rewrite (new_array_ok _ Hmax). simpl rbind.
  destruct (scan_records_spec e s (msg_sender e) (N.to_nat (recordCounter s))
              (N.to_nat (recordCounter s)) 1
              (replicate (N.to_nat (recordCounter s)) 0) 0)
    as (acc' & Hrun & Hlen & Htake); try lia.
  { apply length_replicate. }
  cbv zeta in *. replace (1 - 1) with 0 in * by lia.
  set (found := List.filter _ _) in *.
  rewrite Hrun. simpl rbind. simpl in Htake.
  assert (Hle : (length found <= length acc')%nat).
  { rewrite <- Htake, length_take. lia. }
  rewrite length_replicate in Hlen.
  rewrite new_array_ok by lia. simpl rbind.
  rewrite (copy_records_spec acc' _ (N.to_nat (0 + N.of_nat (length found))));
    try lia.
  - simpl. rewrite drop_0. f_equal.
    replace (N.to_nat (0 + N.of_nat (length found))) with (length found) by lia.
    assumption.
  - apply length_replicate.
Qed.


Lemma elem_of_filter_bool {A} (f : A -> bool) (l : list A) x :
  x ∈ List.filter f l <-> x ∈ l /\ f x = true.
Proof. rewrite !list_elem_of_In. apply filter_In. Qed.

Lemma filter_sorted {A} (R : A -> A -> Prop) (f : A -> bool) (l : list A) :
  StronglySorted R l -> StronglySorted R (List.filter f l).
Proof.
  induction 1 as [|x l Hs IH Hx]; simpl; [constructor|].
  destruct (f x); [|assumption].
  constructor; [assumption|].
  apply Forall_forall. intros y Hy.
  apply elem_of_filter_bool in Hy. destruct Hy as [Hy _].
  revert y Hy. apply Forall_forall. assumption.
Qed.

Lemma getRecord_eq e id s :
  getRecord e id s =
    let rec := record_of s id in
    if negb (MedicalRecord.exists_ rec) then Err RecordNotFound
    else if isAuthorized e s (msg_sender e) rec
    then Ok (MedicalRecord.patientAddress rec, MedicalRecord.ipfsHash rec,
             MedicalRecord.recordType rec, MedicalRecord.description rec,
             MedicalRecord.timestamp rec)
    else Err Unauthorized.
Proof.
  unfold getRecord, recordExists, require, isAuthorized. cbv zeta.
  destruct (MedicalRecord.exists_ _); simpl; [|reflexivity].
  rewrite hasAccess_valid.
  destruct (_ || _ || _ || _); reflexivity.
Qed.

Lemma isAuthorized_iff e s actor rec :
  isAuthorized e s actor rec = true <->
    actor = MedicalRecord.patientAddress rec
    \/ (exists g x p,
          checkAccess e (MedicalRecord.patientAddress rec) actor s = Ok (true, g, x, p))
    \/ (emergencyMode s = true /\ User.role (user_of s actor) = Doctor)
    \/ actor = admin s.
Proof.
  unfold isAuthorized, access_valid.
  rewrite !orb_true_iff, andb_true_iff, !N.eqb_eq, UserRole_eqb_eq.
  unfold checkAccess.
  split.
  - intros [[[H | H] | H] | H]; auto.
    right; left. rewrite H. eauto.
  - intros [H | [(g & x & p & H) | [H | H]]]; auto.
    left; left; right. congruence.
Qed.

Lemma grantAccess_ok_permission e d t p s :
  fst (grantAccess e d t p s) = Ok tt ->
  permission_of (snd (grantAccess e d t p s)) (msg_sender e) d
    = AccessPermission.mk d (block_timestamp e)
        (expiry_of (block_timestamp e) t) true p.
Proof.
  rewrite grantAccess_eq.
  repeat (match goal with |- context [if ?b then _ else _] => destruct b end;
          simpl; try discriminate).
  intros _. unfold granted_state.
  change (permission_of (emit ?ev ?x) ?a ?b) with (permission_of x a b).
  change (permission_of (push_auditTrail ?a ?l ?x) ?y ?z)
    with (permission_of x y z).
  rewrite permission_of_set_permission.
  case_decide; [reflexivity | congruence].
Qed.

(** Whether [grantAccess] succeeds depends on the state through the users
    table only. *)
Lemma grantAccess_ok_users e d t p s s' :
  users s' = users s ->
  fst (grantAccess e d t p s) = Ok tt ->
  fst (grantAccess e d t p s') = Ok tt.
Proof.
  intros Hu. rewrite !grantAccess_eq. unfold user_of. rewrite Hu.
  repeat (match goal with |- context [if ?b then _ else _] => destruct b end;
          simpl; try discriminate; try tauto).
Qed.

Lemma users_grantAccess e d t p s : users (snd (grantAccess e d t p s)) = users s.
Proof.
  rewrite grantAccess_eq.
  repeat (match goal with |- context [if ?b then _ else _] => destruct b end;
          simpl; try reflexivity).
Qed.

(** * The claims *)

(** C1. In the state reached by any history, [getRecord] called by an actor
    on an id that some [createRecord] call returned gives back the stored
    record's fields exactly when the actor is the record's owner, or
    [checkAccess(owner, actor)] is valid, or emergency mode is on and the
    actor's role is Doctor, or the actor is the admin, and fails with
    "Unauthorized access" otherwise; on an id that no [createRecord] call
    returned it fails with "Record does not exist" whoever calls. *)
Theorem getRecord_authorization e0 txs e id :
  let s := run (constructor e0) txs in
  let rec := record_of s id in
  let actor := msg_sender e in
  let fields :=
    (MedicalRecord.patientAddress rec, MedicalRecord.ipfsHash rec,
     MedicalRecord.recordType rec, MedicalRecord.description rec,
     MedicalRecord.timestamp rec) in
  let allowed :=
    actor = MedicalRecord.patientAddress rec
    \/ (exists g x p,
          checkAccess e (MedicalRecord.patientAddress rec) actor s = Ok (true, g, x, p))
    \/ (emergencyMode s = true /\ User.role (user_of s actor) = Doctor)
    \/ actor = admin s in
  (id ∈ created_ids (outcomes (constructor e0) txs) ->
     (getRecord e id s = Ok fields <-> allowed)
     /\ (getRecord e id s = Err Unauthorized <-> ~ allowed))
  /\ (id ∉ created_ids (outcomes (constructor e0) txs) ->
      getRecord e id s = Err RecordNotFound).
Proof.
  intros s rec actor fields allowed.
  assert (Hallowed : isAuthorized e s actor rec = true <-> allowed)
    by apply isAuthorized_iff.
  rewrite created_iff_exists. fold s. fold rec.
  rewrite getRecord_eq. cbv zeta. fold rec. fold fields.
  split.
  - intros ->. simpl. fold actor.
    destruct (isAuthorized e s actor rec) eqn:Hauth.
    + split; split.
      * intros _. apply Hallowed. reflexivity.
      * reflexivity.
      * discriminate.
      * intros Hn. exfalso. apply Hn, Hallowed. reflexivity.
    + split; split.
      * discriminate.
      * intros Ha. apply Hallowed in Ha. discriminate.
      * intros _ Ha. apply Hallowed in Ha. discriminate.
      * reflexivity.
  - intros Hn. destruct (MedicalRecord.exists_ rec); [congruence | reflexivity].
Qed.

(** C2. [checkAccess] returns the stored grant's [grantedAt], [expiresAt]
    and [purpose] together with [valid], which is true exactly when the
    grant is active and its [expiresAt] is 0 or later than the current
    time; a grant with [expiresAt = 0] is valid whenever it is active,
    at every time. The call changes nothing: the state after it, audit
    trails included, is the state before it. *)
Theorem checkAccess_pure_query e p d s :
  let perm := permission_of s p d in
  let now := block_timestamp e in
  exists valid,
    checkAccess e p d s
      = Ok (valid, AccessPermission.grantedAt perm,
            AccessPermission.expiresAt perm, AccessPermission.purpose perm)
    /\ (valid = true <->
          AccessPermission.isActive perm = true
          /\ (AccessPermission.expiresAt perm = 0
              \/ AccessPermission.expiresAt perm > now))
    /\ (AccessPermission.expiresAt perm = 0 ->
          valid = AccessPermission.isActive perm)
    /\ dispatch e (CheckAccess p d) s
         = (Ok (RAccess (valid, AccessPermission.grantedAt perm,
                         AccessPermission.expiresAt perm,
                         AccessPermission.purpose perm)), s)
    /\ snd (call e (CheckAccess p d) s) = s
    /\ forall a, getAuditTrail a (snd (call e (CheckAccess p d) s))
                 = getAuditTrail a s.
Proof.
  intros perm now. eexists. split; [reflexivity|].
  subst perm now. split; [|split; [|split; [|split]]].
  - rewrite andb_true_iff, orb_true_iff, N.eqb_eq, N.ltb_lt.
    split; intros [Ha [Hb | Hb]]; (split; [exact Ha | (left; lia) || (right; lia)]).
  - intros ->. simpl. apply andb_true_r.
  - reflexivity.
  - reflexivity.
  - reflexivity.
Qed.


(** C4. When the same patient grants the same doctor access twice, the
    stored grant after the second call is the second grant alone:
    [grantedAt] is the second call's time, [expiresAt] is that time plus
    the second duration when the duration is positive and 0 when it is 0,
    the grant is active and carries the second purpose. [checkAccess]
    reports these values, and they are the values a single grant G2 made
    without G1 would have left. *)
Theorem regrant_overwrites e1 e2 d t1 t2 p1 p2 s :
  let s1 := snd (grantAccess e1 d t1 p1 s) in
  let s2 := snd (grantAccess e2 d t2 p2 s1) in
  let patient := msg_sender e2 in
  let expiresAt2 := if 0 <? t2 then block_timestamp e2 + t2 else 0 in
  msg_sender e1 = msg_sender e2 ->
  fst (grantAccess e1 d t1 p1 s) = Ok tt ->
  fst (grantAccess e2 d t2 p2 s1) = Ok tt ->
  permission_of s2 patient d
    = AccessPermission.mk d (block_timestamp e2) expiresAt2 true p2
  /\ (forall e,
        checkAccess e patient d s2
          = Ok ((expiresAt2 =? 0) || (block_timestamp e <? expiresAt2),
                block_timestamp e2, expiresAt2, p2))
  /\ (forall e,
        checkAccess e patient d s2
          = checkAccess e patient d (snd (grantAccess e2 d t2 p2 s))).
Proof.
  intros s1 s2 patient expiresAt2 Hsender H1 H2.
  assert (Hperm : permission_of s2 patient d
            = AccessPermission.mk d (block_timestamp e2) expiresAt2 true p2)
    by (apply grantAccess_ok_permission; exact H2).
  assert (Hsingle : permission_of (snd (grantAccess e2 d t2 p2 s)) patient d
            = AccessPermission.mk d (block_timestamp e2) expiresAt2 true p2).
  { apply grantAccess_ok_permission.
    apply (grantAccess_ok_users e2 d t2 p2 s1 s); [|exact H2].
    symmetry. apply users_grantAccess. }
  split; [assumption|]. split.
  - intros e. unfold checkAccess. rewrite Hperm. reflexivity.
  - intros e. unfold checkAccess. rewrite Hperm, Hsingle. reflexivity.
Qed.

(** C5. For a caller that is registered with role Patient, [revokeAccess]
    succeeds exactly when the stored grant to the doctor has its active
    flag set, whatever its expiry: revoking an expired but still active
    grant succeeds. After a successful call the stored grant has its
    active flag false and its other fields as before, so [checkAccess] of
    the pair is not valid at any time. Revoking an inactive grant fails
    with "No active permission"; a failing call had written nothing when
    it stopped, and the state after it, audit trails included, is the
    state before it. *)
Theorem revokeAccess_iff_active e d s :
  let patient := msg_sender e in
  let perm := permission_of s patient d in
  let s' := snd (call e (RevokeAccess d) s) in
  User.isRegistered (user_of s patient) = true ->
  User.role (user_of s patient) = Patient ->
  (fst (call e (RevokeAccess d) s) = Ok RUnit
     <-> AccessPermission.isActive perm = true)
  /\ (AccessPermission.isActive perm = true ->
        revokeAccess e d s = (Ok tt, s')
        /\ call e (RevokeAccess d) s = (Ok RUnit, s')
        /\ permission_of s' patient d
           = AccessPermission.mk (AccessPermission.doctorAddress perm)
               (AccessPermission.grantedAt perm) (AccessPermission.expiresAt perm)
               false (AccessPermission.purpose perm)
        /\ AccessPermission.isActive (permission_of s' patient d) = false
        /\ (forall e',
              checkAccess e' patient d s'
                = Ok (false, AccessPermission.grantedAt perm,
                      AccessPermission.expiresAt perm,
                      AccessPermission.purpose perm)))
  /\ (AccessPermission.isActive perm = false ->
        revokeAccess e d s = (Err NoActivePermission, s)
        /\ call e (RevokeAccess d) s = (Err NoActivePermission, s)
        /\ s' = s
        /\ forall a, getAuditTrail a s' = getAuditTrail a s).
Proof.
  intros patient perm s' Hreg Hrole.
  assert (Heq : revokeAccess e d s =
                  if AccessPermission.isActive perm
                  then (Ok tt, revoked_state e d s)
                  else (Err NoActivePermission, s)).
  { rewrite revokeAccess_eq. fold patient. rewrite Hreg, Hrole. simpl.
    fold perm. destruct (AccessPermission.isActive perm); reflexivity. }
  subst s'. unfold call, dispatch, emap, bind, ret. rewrite Heq.
  destruct (AccessPermission.isActive perm) eqn:Hact; simpl.
  - split; [tauto|]. split; [|discriminate].
    intros _.
    assert (Hperm : permission_of (revoked_state e d s) patient d
              = AccessPermission.mk (AccessPermission.doctorAddress perm)
                  (AccessPermission.grantedAt perm) (AccessPermission.expiresAt perm)
                  false (AccessPermission.purpose perm)).
    { unfold revoked_state.
      change (permission_of (emit ?ev ?x) ?a ?b) with (permission_of x a b).
      change (permission_of (push_auditTrail ?a ?l ?x) ?y ?z)
        with (permission_of x y z).
      rewrite permission_of_set_permission.
      case_decide as Hpair; [reflexivity | exfalso; apply Hpair; reflexivity]. }
    split; [reflexivity|]. split; [reflexivity|]. split; [exact Hperm|].
    split; [rewrite Hperm; reflexivity|].
    intros e'. unfold checkAccess. rewrite Hperm. reflexivity.
  - split; [split; discriminate|]. split; [discriminate|]. auto.
Qed.

(** C6. Along any history the ids returned by the successful
    [createRecord] calls are 1, 2, ..., N in that order, N being the
    record counter: they are strictly increasing, so none is handed out
    twice. The record a successful [createRecord] call stored under its
    id is still stored under that id, with the same owner, payload
    reference, type, description and creation time, after any later
    calls. *)
Theorem record_ids_dense_immutable e0 txs :
  let os := outcomes (constructor e0) txs in
  let s := run (constructor e0) txs in
  created_ids os = map N.of_nat (seq 1 (length (created_ids os)))
  /\ recordCounter s = N.of_nat (length (created_ids os))
  /\ StronglySorted N.lt (created_ids os)
  /\ (forall txs1 e h t d txs2 id,
        txs = txs1 ++ (e, CreateRecord h t d) :: txs2 ->
        fst (call e (CreateRecord h t d) (run (constructor e0) txs1)) = Ok (RUint id) ->
        record_of s id
          = MedicalRecord.mk id (msg_sender e) h t d (block_timestamp e) true).
Proof.
  intros os s.
  destruct (created_ids_run txs (constructor e0)) as [Hids Hcnt].
  fold os in Hids, Hcnt. fold s in Hcnt. simpl in Hids, Hcnt.
  split; [rewrite <- ids_from_0; exact Hids|].
  split; [exact Hcnt|].
  split; [rewrite Hids; apply ids_from_sorted|].
  intros txs1 e h t d txs2 id -> Hok.
  subst s. rewrite run_app. simpl run.
  set (s1 := run (constructor e0) txs1) in *.
  assert (Hinv : state_inv (msg_sender e0) s1) by apply reachable_inv.
  assert (Hstep : step s1 (e, CreateRecord h t d) = created_state e h t d s1
                  /\ id = recordCounter s1 + 1).
  { unfold step. simpl fst. simpl snd. revert Hok.
    unfold call, dispatch, emap, bind, ret. rewrite createRecord_eq.
    repeat (match goal with |- context [if ?b then _ else _] => destruct b end;
            simpl; try discriminate).
    intros [= <-]. auto. }
  destruct Hstep as [Hstep ->]. rewrite Hstep.
  assert (Hrec : record_of (created_state e h t d s1) (recordCounter s1 + 1)
            = MedicalRecord.mk (recordCounter s1 + 1) (msg_sender e) h t d
                (block_timestamp e) true).
  { rewrite record_of_created_state. case_decide; [reflexivity | congruence]. }
  rewrite (run_record_stable (msg_sender e0)).
  - exact Hrec.
  - rewrite <- Hstep. apply step_inv, Hinv.
  - rewrite Hrec. reflexivity.
Qed.

(** C7. Along any history a registered identity keeps its role through
    all later calls; the role a successful [registerUser] call assigns is
    the one asked for and stays; [registerUser] by an identity that is
    already registered fails with "User already registered"; and the role
    Admin is held by the deploying identity and by nobody else, the
    [admin] variable being that identity throughout. *)
Theorem role_immutable_single_admin e0 txs a :
  let s := run (constructor e0) txs in
  (forall txs',
     User.isRegistered (user_of s a) = true ->
     User.role (user_of (run s txs') a) = User.role (user_of s a))
  /\ (forall e n r txs',
        msg_sender e = a ->
        fst (call e (RegisterUser n r) s) = Ok RUnit ->
        User.role (user_of (run s ((e, RegisterUser n r) :: txs')) a) = r)
  /\ (forall e n r,
        msg_sender e = a ->
        User.isRegistered (user_of s a) = true ->
        registerUser e n r s = (Err AlreadyRegistered, s)
        /\ call e (RegisterUser n r) s = (Err AlreadyRegistered, s))
  /\ (User.role (user_of s a) = Admin <-> a = msg_sender e0)
  /\ admin s = msg_sender e0
  /\ User.isRegistered (user_of s (msg_sender e0)) = true.
Proof.
  intros s.
  pose proof (reachable_inv e0 txs) as Hinv. fold s in Hinv.
  split; [|split; [|split; [|split; [|split]]]].
  - intros txs' Hreg. rewrite run_user_stable by assumption. reflexivity.
  - intros e n r txs' <- Hok. simpl run.
    assert (Hstep : user_of (step s (e, RegisterUser n r)) (msg_sender e)
              = User.mk (msg_sender e) n r true (block_timestamp e)).
    { unfold step. simpl fst. simpl snd. revert Hok.
      unfold call, dispatch, emap, bind, ret. rewrite registerUser_eq.
      repeat (match goal with |- context [if ?b then _ else _] => destruct b end;
              simpl; try discriminate).
      intros _. rewrite user_of_registered_state.
      case_decide; [reflexivity | congruence]. }
    rewrite run_user_stable; rewrite Hstep; reflexivity.
  - intros e n r <- Hreg.
    unfold call, dispatch, emap, bind, ret. rewrite registerUser_eq, Hreg.
    auto.
  - apply (inv_one_admin _ _ Hinv).
  - apply (inv_admin _ _ Hinv).
  - apply (inv_registered _ _ Hinv).
    rewrite (proj2 (inv_one_admin _ _ Hinv (msg_sender e0)) eq_refl).
    discriminate.
Qed.

(** C8. Along any history an actor's audit trail is exactly the sequence
    of entries of the actor's successful [createRecord], [grantAccess] and
    [revokeAccess] calls, in the order of the calls; its length is their
    number; later calls only append to it; and [getRecord], [registerUser]
    and [checkAccess] leave every audit trail as it was. *)
Theorem audit_trail_append_only e0 txs a :
  let s := run (constructor e0) txs in
  let os := outcomes (constructor e0) txs in
  getAuditTrail a s = Ok (logged_actions a os)
  /\ length (auditTrail_of s a) = length (logged_actions a os)
  /\ (forall txs',
        getAuditTrail a (run s txs')
          = Ok (logged_actions a os ++ logged_actions a (outcomes s txs')))
  /\ (forall e id, auditTrails (snd (call e (GetRecord id) s)) = auditTrails s)
  /\ (forall e n r, auditTrails (snd (call e (RegisterUser n r) s)) = auditTrails s)
  /\ (forall e p d, auditTrails (snd (call e (CheckAccess p d) s)) = auditTrails s).
Proof.
  intros s os.
  assert (Htrail : auditTrail_of s a = logged_actions a os).
  { subst s os. rewrite logged_actions_run, auditTrail_of_constructor.
    reflexivity. }
  split; [|split; [|split; [|split; [|split]]]].
  - unfold getAuditTrail. rewrite Htrail. reflexivity.
  - rewrite Htrail. reflexivity.
  - intros txs'. unfold getAuditTrail.
    rewrite logged_actions_run, Htrail. reflexivity.
  - intros e id. unfold call, dispatch, view, rmap, rbind.
    destruct (getRecord e id s); reflexivity.
  - intros e n r. unfold call, dispatch, emap, bind, ret.
    rewrite registerUser_eq.
    repeat (match goal with |- context [if ?b then _ else _] => destruct b end;
            simpl; try reflexivity).
  - intros e p d. reflexivity.
Qed.

(** C9. In the state reached by any history, an identity whose role is not
    None is registered; so in [grantAccess] the check that the grantee is
    registered, which comes after the check that the grantee's role is
    Doctor, never fails: [grantAccess] never reverts with
    "Doctor not registered". *)
Theorem grantee_not_registered_unreachable e0 txs e d t p :
  let s := run (constructor e0) txs in
  (forall a, User.role (user_of s a) <> None_ ->
             User.isRegistered (user_of s a) = true)
  /\ (User.role (user_of s d) = Doctor ->
      User.isRegistered (user_of s d) = true)
  /\ fst (grantAccess e d t p s) <> Err GranteeNotRegistered
  /\ fst (call e (GrantAccess d t p) s) <> Err GranteeNotRegistered.
Proof.
  intros s.
  pose proof (reachable_inv e0 txs) as Hinv. fold s in Hinv.
  assert (Hdoc : User.role (user_of s d) = Doctor ->
                 User.isRegistered (user_of s d) = true).
  { intros Hd. apply (inv_registered _ _ Hinv). rewrite Hd. discriminate. }
  assert (Hgrant : fst (grantAccess e d t p s) <> Err GranteeNotRegistered).
  { rewrite grantAccess_eq.
    destruct (User.isRegistered (user_of s (msg_sender e))); simpl;
      [|discriminate].
    destruct (UserRole_eqb (User.role (user_of s (msg_sender e))) Patient); simpl;
      [|discriminate].
    destruct (UserRole_eqb (User.role (user_of s d)) Doctor) eqn:Hd; simpl;
      [|discriminate].
    apply UserRole_eqb_eq in Hd. rewrite (Hdoc Hd). simpl.
    destruct (_ && _); discriminate. }
  split; [|split; [|split]].
  - intros a0 Ha. apply (inv_registered _ _ Hinv). assumption.
  - exact Hdoc.
  - exact Hgrant.
  - unfold call, dispatch, emap, bind, ret.
    destruct (grantAccess e d t p s) as [[[]|er] s']; simpl in *;
      [discriminate | congruence].
Qed.

(** C10. [revokeAccess] called by an identity that is not registered, or
    whose role is not Patient (a Doctor; or the admin of a reachable
    state), fails with "User not registered" or "Only patients allowed".
    The failure is the same whatever grant is stored for the pair, and the
    call had written nothing when it stopped: the state after it is the
    state before it. *)
Theorem revokeAccess_requires_registered_patient e d s :
  let caller := msg_sender e in
  User.isRegistered (user_of s caller) = false
  \/ User.role (user_of s caller) <> Patient
  \/ (reachable s /\ caller = admin s) ->
  exists er,
    (er = NotRegistered \/ er = OnlyPatients)
    /\ revokeAccess e d s = (Err er, s)
    /\ call e (RevokeAccess d) s = (Err er, s)
    /\ (forall x, fst (revokeAccess e d (set_permission caller d x s)) = Err er).
Proof.
  intros caller H.
  assert (H' : User.isRegistered (user_of s caller) = false
               \/ User.role (user_of s caller) <> Patient).
  { destruct H as [H | [H | [(e0 & txs & ->) Hadm]]]; auto.
    right. pose proof (reachable_inv e0 txs) as Hinv.
    rewrite Hadm, (inv_admin _ _ Hinv).
    rewrite (proj2 (inv_one_admin _ _ Hinv (msg_sender e0)) eq_refl).
    discriminate. }
  clear H.
  assert (Hany : forall s', users s' = users s ->
            exists er, (er = NotRegistered \/ er = OnlyPatients)
              /\ (User.isRegistered (user_of s caller) = false -> er = NotRegistered)
              /\ (User.isRegistered (user_of s caller) = true -> er = OnlyPatients)
              /\ revokeAccess e d s' = (Err er, s')).
  { intros s' Hu. rewrite revokeAccess_eq. unfold user_of in *. rewrite Hu.
    fold caller.
    destruct (User.isRegistered _) eqn:Hreg; simpl.
    - destruct H' as [H' | H']; [discriminate|].
      apply UserRole_eqb_neq in H'. rewrite H'. simpl.
      exists OnlyPatients. repeat split; auto; discriminate.
    - exists NotRegistered. repeat split; auto; discriminate. }
  destruct (Hany s eq_refl) as (er & Her & Hn & Hp & Hrun).
  exists er. split; [assumption|]. split; [assumption|]. split.
  - unfold call, dispatch, emap, bind, ret. rewrite Hrun. reflexivity.
  - intros x.
    destruct (Hany (set_permission caller d x s) eq_refl)
      as (er' & _ & Hn' & Hp' & Hrun').
    rewrite Hrun'. simpl. f_equal.
    destruct (User.isRegistered (user_of s caller)); [rewrite Hp, Hp' | rewrite Hn, Hn'];
      reflexivity.
Qed.

(** * The statements at work on the scenario *)

Lemma getRecord_authorization_witness :
  1 ∈ created_ids (outcomes (constructor Scenario.deployment) Scenario.setup)
  /\ getRecord Scenario.doctor_calls 1 Scenario.state
       = Ok (Scenario.patient, "Qm123", "Lab Report", "blood panel", 1004)
  /\ getRecord (mkEnv Scenario.other_doctor 2000) 1 Scenario.state
       = Err Unauthorized
  /\ getRecord Scenario.patient_calls 2 Scenario.state
       = Err RecordNotFound.
Proof.
  assert (Hin : 1 ∈ created_ids
                  (outcomes (constructor Scenario.deployment) Scenario.setup))
    by (vm_compute; left).
  split; [exact Hin|]. split; [|split].
  - apply (proj1 (getRecord_authorization Scenario.deployment Scenario.setup
                    Scenario.doctor_calls 1) Hin).
    right; left. eexists _, _, _. vm_compute. reflexivity.
  - apply (proj1 (getRecord_authorization Scenario.deployment Scenario.setup
                    (mkEnv Scenario.other_doctor 2000) 1) Hin).
    intros [H | [(g & x & p & H) | [[H _] | H]]]; vm_compute in H; discriminate.
  - apply (proj2 (getRecord_authorization Scenario.deployment Scenario.setup
                    Scenario.patient_calls 2)).
    vm_compute. intros H. inversion H as [|? ? ? H']; inversion H'.
Defined.


Lemma regrant_overwrites_witness :
  msg_sender Scenario.patient_calls = msg_sender Scenario.patient_calls_again
  /\ fst (grantAccess Scenario.patient_calls Scenario.doctor 600 "first"
            Scenario.state) = Ok tt
  /\ fst (grantAccess Scenario.patient_calls_again Scenario.doctor 0 "second"
            Scenario.regranted_once) = Ok tt
  /\ permission_of Scenario.regranted_twice Scenario.patient Scenario.doctor
       = AccessPermission.mk Scenario.doctor 3000 0 true "second".
Proof.
  assert (H0 : msg_sender Scenario.patient_calls
               = msg_sender Scenario.patient_calls_again) by reflexivity.
  assert (H1 : fst (grantAccess Scenario.patient_calls Scenario.doctor 600 "first"
                      Scenario.state) = Ok tt)
    by (vm_compute; reflexivity).
  assert (H2 : fst (grantAccess Scenario.patient_calls_again Scenario.doctor 0
                      "second" Scenario.regranted_once) = Ok tt)
    by (vm_compute; reflexivity).
  split; [exact H0|]. split; [exact H1|]. split; [exact H2|].
  exact (proj1 (regrant_overwrites Scenario.patient_calls
                  Scenario.patient_calls_again Scenario.doctor 600 0
                  "first" "second" Scenario.state H0 H1 H2)).
Defined.

Lemma revokeAccess_iff_active_witness :
  User.isRegistered (user_of Scenario.state Scenario.patient) = true
  /\ User.role (user_of Scenario.state Scenario.patient) = Patient
  /\ access_valid Scenario.patient_calls_late Scenario.state Scenario.patient
       Scenario.doctor = false
  /\ AccessPermission.isActive
       (permission_of Scenario.state Scenario.patient Scenario.doctor) = true
  /\ fst (call Scenario.patient_calls_late (RevokeAccess Scenario.doctor)
            Scenario.state) = Ok RUnit
  /\ AccessPermission.isActive
       (permission_of
          (snd (call Scenario.patient_calls_late (RevokeAccess Scenario.doctor)
                  Scenario.state))
          Scenario.patient Scenario.doctor) = false.
Proof.
  assert (H1 : User.isRegistered
                 (user_of Scenario.state (msg_sender Scenario.patient_calls_late))
               = true)
    by (vm_compute; reflexivity).
  assert (H2 : User.role
                 (user_of Scenario.state (msg_sender Scenario.patient_calls_late))
               = Patient)
    by (vm_compute; reflexivity).
  assert (H3 : AccessPermission.isActive
                 (permission_of Scenario.state
                    (msg_sender Scenario.patient_calls_late) Scenario.doctor)
               = true)
    by (vm_compute; reflexivity).
  split; [exact H1|]. split; [exact H2|]. split; [vm_compute; reflexivity|].
  split; [exact H3|].
  pose proof (revokeAccess_iff_active Scenario.patient_calls_late
                Scenario.doctor Scenario.state H1 H2) as (Hiff & Hon & _).
  split; [apply Hiff; exact H3|].
  destruct (Hon H3) as (_ & _ & _ & Hfalse & _). exact Hfalse.
Defined.

Lemma revokeAccess_requires_registered_patient_witness :
  User.role (user_of Scenario.state Scenario.doctor) <> Patient
  /\ exists er,
       (er = NotRegistered \/ er = OnlyPatients)
       /\ revokeAccess Scenario.doctor_calls Scenario.patient Scenario.state
          = (Err er, Scenario.state).
Proof.
  assert (H : User.role (user_of Scenario.state (msg_sender Scenario.doctor_calls))
              <> Patient)
    by (vm_compute; discriminate).
  split; [exact H|].
  destruct (revokeAccess_requires_registered_patient Scenario.doctor_calls
              Scenario.patient Scenario.state (or_intror (or_introl H)))
    as (er & Her & Hrun & _).
  exists er. split; [exact Her | exact Hrun].
Defined.

Lemma checkAccess_pure_query_witness :
  exists valid,
    checkAccess Scenario.doctor_calls Scenario.patient Scenario.doctor Scenario.state
      = Ok (valid, 1005, 87405, "consultation")
    /\ snd (call Scenario.doctor_calls
              (CheckAccess Scenario.patient Scenario.doctor) Scenario.state)
       = Scenario.state.
Proof.
  destruct (checkAccess_pure_query Scenario.doctor_calls Scenario.patient
              Scenario.doctor Scenario.state)
    as (valid & Hrun & _ & _ & _ & Hstate & _).
  exists valid. split; [|exact Hstate].
  rewrite Hrun. vm_compute. reflexivity.
Defined.

Lemma record_ids_dense_immutable_witness :
  record_of Scenario.state 1
    = MedicalRecord.mk 1 Scenario.patient "Qm123" "Lab Report" "blood panel"
        1004 true.
Proof.
  apply (proj2 (proj2 (proj2
           (record_ids_dense_immutable Scenario.deployment Scenario.setup)))
           (firstn 3 Scenario.setup) (mkEnv Scenario.patient 1004)
           "Qm123" "Lab Report" "blood panel" (skipn 4 Scenario.setup) 1).
  - reflexivity.
  - vm_compute. reflexivity.
Defined.

Lemma role_immutable_single_admin_witness :
  User.role
    (user_of (run Scenario.state
                [(Scenario.doctor_calls, RegisterUser "again" Patient);
                 (Scenario.patient_calls, RevokeAccess Scenario.doctor)])
       Scenario.doctor)
  = Doctor.
Proof.
  rewrite (proj1 (role_immutable_single_admin Scenario.deployment Scenario.setup
                    Scenario.doctor))
    by (vm_compute; reflexivity).
  vm_compute. reflexivity.
Defined.

Lemma audit_trail_append_only_witness :
  getAuditTrail Scenario.patient Scenario.state
    = Ok [AuditLog.mk Scenario.patient 1 1004 "CREATE";
          AuditLog.mk Scenario.patient 0 1005 "GRANT_ACCESS"].
Proof.
  unfold Scenario.state.
  rewrite (proj1 (audit_trail_append_only Scenario.deployment Scenario.setup
                    Scenario.patient)).
  vm_compute. reflexivity.
Defined.

Lemma grantee_not_registered_unreachable_witness :
  fst (grantAccess Scenario.patient_calls Scenario.other_doctor 0 "second opinion"
         Scenario.state)
  <> Err GranteeNotRegistered.
Proof.
  exact (proj1 (proj2 (proj2
           (grantee_not_registered_unreachable Scenario.deployment Scenario.setup
              Scenario.patient_calls Scenario.other_doctor 0 "second opinion")))).
Defined.

(** * Further properties of the contract *)

(** ** Calls with their guards *)

Lemma call_detail_intro e c s :
  call_detail e s c (fst (call e c s)) (snd (call e c s)).
Proof.
  unfold call.
  destruct c; simpl; unfold emap, bind, view, rmap, rbind, ret.
  - rewrite registerUser_eq.
    destruct (User.isRegistered _) eqn:Hreg; simpl; [constructor|].
    destruct (_ || _) eqn:Hrole; simpl; [|constructor].
    destruct (nonempty _) eqn:Hname; simpl; [|constructor].
    constructor; try assumption.
    apply orb_true_iff in Hrole.
    destruct Hrole as [H|H]; apply UserRole_eqb_eq in H; auto.
  - simpl. apply cd_view. reflexivity.
  - rewrite createRecord_eq.
    destruct (User.isRegistered _) eqn:Hreg; simpl; [|constructor].
    destruct (UserRole_eqb _ _) eqn:Hrole; simpl; [|constructor].
    destruct (nonempty _) eqn:Hhash; simpl; [|constructor].
    destruct (_ <=? _) eqn:Hc; simpl; [|constructor].
    constructor; try assumption.
    + apply UserRole_eqb_eq. assumption.
    + apply N.leb_le in Hc. lia.
  - simpl. apply cd_view. reflexivity.
  - destruct (getDoctorAccessibleRecords _ _ _); simpl;
      [apply cd_view; reflexivity | constructor].
  - destruct (getRecord _ _ _); simpl; [apply cd_view; reflexivity | constructor].
  - rewrite grantAccess_eq.
    destruct (User.isRegistered (user_of s (msg_sender e))) eqn:Hreg; simpl;
      [|constructor].
    destruct (UserRole_eqb (User.role (user_of s (msg_sender e))) Patient) eqn:Hrole;
      simpl; [|constructor].
    destruct (UserRole_eqb _ Doctor) eqn:Hdoc; simpl; [|constructor].
    destruct (User.isRegistered (user_of s _doctor)) eqn:Hdreg; simpl; [|constructor].
    destruct (0 <? _expiryDuration) eqn:Hpos; simpl.
    + destruct (_ <=? _) eqn:Hsum; simpl; [|constructor].
      constructor; try assumption; try (apply UserRole_eqb_eq; assumption).
      right. apply N.ltb_lt in Hpos. apply N.leb_le in Hsum. auto.
    + constructor; try assumption; try (apply UserRole_eqb_eq; assumption).
      left. apply N.ltb_ge in Hpos. lia.
  - rewrite revokeAccess_eq.
    destruct (User.isRegistered _) eqn:Hreg; simpl; [|constructor].
    destruct (UserRole_eqb _ _) eqn:Hrole; simpl; [|constructor].
    destruct (AccessPermission.isActive _) eqn:Hact; simpl; [|constructor].
    constructor; try assumption. apply UserRole_eqb_eq. assumption.
  - simpl. apply cd_view. reflexivity.
  - simpl. apply cd_view. reflexivity.
  - rewrite toggleEmergencyMode_eq.
    destruct (N.eqb_spec (msg_sender e) (admin s)); simpl; constructor.
    assumption.
  - simpl. apply cd_view. reflexivity.
Qed.

Lemma call_detail_outcome e s c r s' :
  call_detail e s c r s' -> call_outcome e s c r s'.
Proof.
  intros []; constructor; assumption.
Qed.

(** ** More reads after writes *)

Lemma ids_from_snoc lo n :
  ids_from lo (S n) = ids_from lo n ++ [lo + N.of_nat n + 1].
Proof.
  unfold ids_from. rewrite seq_S, map_app. simpl. f_equal. f_equal. lia.
Qed.

Lemma patientRecords_of_created_state e h t d s a :
  patientRecords_of (created_state e h t d s) a =
    if decide (a = msg_sender e)
    then patientRecords_of s a ++ [recordCounter s + 1]
    else patientRecords_of s a.
Proof.
  unfold patientRecords_of at 1, created_state; simpl.
  case_decide as H.
  - subst a. rewrite lookup_insert_eq. reflexivity.
  - rewrite lookup_insert_ne by congruence. reflexivity.
Qed.

Lemma permission_of_Some s p d x :
  permissions s !! (p, d) = Some x -> permission_of s p d = x.
Proof. unfold permission_of. intros ->. reflexivity. Qed.

Lemma permission_active_Some s p d :
  AccessPermission.isActive (permission_of s p d) = true ->
  permissions s !! (p, d) = Some (permission_of s p d).
Proof.
  unfold permission_of. destruct (permissions s !! (p, d)); simpl;
    [reflexivity | discriminate].
Qed.

Lemma user_of_Some s a u : users s !! a = Some u -> user_of s a = u.
Proof. unfold user_of. intros ->. reflexivity. Qed.

(** Registration leaves every identity that already has a role alone. *)
Lemma user_of_registered_state_role dep e n r s a :
  state_inv dep s ->
  User.isRegistered (user_of s (msg_sender e)) = false ->
  User.role (user_of s a) <> None_ ->
  user_of (registered_state e n r s) a = user_of s a.
Proof.
  intros Hinv Hunreg Hrole. rewrite user_of_registered_state.
  case_decide as Ha; [|reflexivity].
  subst a. apply (inv_registered _ _ Hinv) in Hrole. congruence.
Qed.

(** ** The tables invariant holds in every reachable state *)

Lemma constructor_tables e0 : tables_inv (constructor e0).
Proof.
  split.
  - intros a u. unfold constructor; simpl.
    rewrite lookup_insert_Some, lookup_empty.
    intros [[<- <-] | [_ H]]; [repeat split | discriminate].
  - intros id. unfold record_of; simpl. rewrite lookup_empty. discriminate.
  - intros a. unfold patientRecords_of; simpl. rewrite lookup_empty. reflexivity.
  - intros p d x. simpl. rewrite lookup_empty. discriminate.
  - intros a. rewrite auditTrail_of_constructor. split; [constructor | congruence].
Qed.

Lemma owned_by_stable s s' a id :
  (forall i, MedicalRecord.exists_ (record_of s i) = true ->
             record_of s' i = record_of s i) ->
  owned_by s a id = true -> owned_by s' a id = true.
Proof.
  intros Hrec. unfold owned_by. rewrite !andb_true_iff.
  intros [Hex Hown]. rewrite (Hrec id Hex). auto.
Qed.

Lemma audit_entry_ok_stable s s' a l :
  (forall i, MedicalRecord.exists_ (record_of s i) = true ->
             record_of s' i = record_of s i) ->
  audit_entry_ok s a l -> audit_entry_ok s' a l.
Proof.
  intros Hrec [Hacc Hshape]. split; [assumption|].
  destruct Hshape as [(Hact & Hown & Htime) | Hother]; [left | right; assumption].
  split; [assumption|]. split; [eapply owned_by_stable; eassumption|].
  rewrite Htime. apply andb_true_iff in Hown. destruct Hown as [Hex _].
  rewrite (Hrec _ Hex). reflexivity.
Qed.

Lemma audit_push_tables s s' e l :
  (forall a, auditTrail_of s' a =
             if decide (a = msg_sender e) then auditTrail_of s a ++ [l]
             else auditTrail_of s a) ->
  (forall a, user_of s' a = user_of s a) ->
  (forall i, MedicalRecord.exists_ (record_of s i) = true ->
             record_of s' i = record_of s i) ->
  User.role (user_of s (msg_sender e)) = Patient ->
  audit_entry_ok s' (msg_sender e) l ->
  (forall a, Forall (audit_entry_ok s a) (auditTrail_of s a)
             /\ (auditTrail_of s a <> [] -> User.role (user_of s a) = Patient)) ->
  forall a, Forall (audit_entry_ok s' a) (auditTrail_of s' a)
            /\ (auditTrail_of s' a <> [] -> User.role (user_of s' a) = Patient).
Proof.
  intros Htrail Huser Hrec Hrole Hnew Hold a.
  destruct (Hold a) as [Hall Hpat].
  assert (Hall' : Forall (audit_entry_ok s' a) (auditTrail_of s a)).
  { eapply Forall_impl; [exact Hall|].
    intros l0. apply audit_entry_ok_stable. assumption. }
  rewrite Htrail, Huser. case_decide as Ha.
  - subst a. split; [|intros _; assumption].
    apply Forall_app. split; [assumption|]. constructor; [assumption | constructor].
  - split; assumption.
Qed.

Lemma call_detail_tables dep e s c r s' :
  call_detail e s c r s' -> state_inv dep s -> tables_inv s -> tables_inv s'.
Proof.
  intros Hcd Hinv Htab.
  destruct Hcd as [ | | n r Hunreg Hr Hname | h t d Hreg Hrole Hhash Hlt
                  | d t p Hreg Hrole Hdoc Hdreg Ht | d Hreg Hrole Hact | Hadm ];
    try assumption.
  - (* registerUser *)
    assert (Hkeep : forall a, User.role (user_of s a) <> None_ ->
              user_of (registered_state e n r s) a = user_of s a)
      by (intros a; apply (user_of_registered_state_role dep); assumption).
    destruct Htab as [Hu Ho Hi Hp Ha]. split.
    + intros a u. unfold registered_state; simpl.
      rewrite lookup_insert_Some.
      intros [[<- <-] | [_ H]]; [repeat split; assumption | apply Hu, H].
    + intros id Hex. specialize (Ho id Hex).
      change (record_of (registered_state e n r s) id) with (record_of s id).
      rewrite Hkeep; [assumption | rewrite Ho; discriminate].
    + exact Hi.
    + intros p d x Hx. destruct (Hp p d x Hx) as (H1 & H2 & H3 & H4).
      rewrite !Hkeep; [auto | rewrite H2; discriminate | rewrite H1; discriminate].
    + intros a. destruct (Ha a) as [Hall Hpat]. split; [exact Hall|].
      intros Hne. specialize (Hpat Hne).
      rewrite Hkeep; [assumption | rewrite Hpat; discriminate].
  - (* createRecord *)
    assert (Hrec : forall i, MedicalRecord.exists_ (record_of s i) = true ->
              record_of (created_state e h t d s) i = record_of s i).
    { intros i Hex. rewrite record_of_created_state.
      case_decide as Hi; [|reflexivity].
      apply (inv_exists _ _ Hinv) in Hex. lia. }
    assert (Hnew : record_of (created_state e h t d s) (recordCounter s + 1)
              = MedicalRecord.mk (recordCounter s + 1) (msg_sender e) h t d
                  (block_timestamp e) true).
    { rewrite record_of_created_state. case_decide; [reflexivity | congruence]. }
    destruct Htab as [Hu Ho Hi Hp Ha]. split.
    + exact Hu.
    + intros id. rewrite record_of_created_state.
      case_decide as Hid; simpl; [intros _; exact Hrole | apply Ho].
    + intros a. rewrite patientRecords_of_created_state.
      change (recordCounter (created_state e h t d s)) with (recordCounter s + 1).
      replace (N.to_nat (recordCounter s + 1)) with (S (N.to_nat (recordCounter s)))
        by lia.
      rewrite ids_from_snoc, List.filter_app, Hi. simpl.
      replace (0 + N.of_nat (N.to_nat (recordCounter s)) + 1)
        with (recordCounter s + 1) by lia.
      assert (Hsame : List.filter (owned_by (created_state e h t d s) a)
                        (ids_from 0 (N.to_nat (recordCounter s)))
                      = List.filter (owned_by s a)
                          (ids_from 0 (N.to_nat (recordCounter s)))).
      { apply filter_ext_in. intros i Hin.
        apply list_elem_of_In, elem_of_ids_from in Hin.
        unfold owned_by. rewrite record_of_created_state.
        case_decide; [lia | reflexivity]. }
      rewrite Hsame.
      replace (owned_by (created_state e h t d s) a (recordCounter s + 1))
        with (msg_sender e =? a)
        by (unfold owned_by; rewrite Hnew; reflexivity).
      case_decide as Hs.
      * subst a. rewrite N.eqb_refl. reflexivity.
      * destruct (N.eqb_spec (msg_sender e) a); [congruence|].
        rewrite app_nil_r. reflexivity.
    + exact Hp.
    + apply (audit_push_tables s _ e
               (AuditLog.mk (msg_sender e) (recordCounter s + 1)
                  (block_timestamp e) "CREATE")); try assumption.
      * intros a. unfold created_state. cbv zeta.
        change (auditTrail_of (emit ?ev ?x) a) with (auditTrail_of x a).
        rewrite auditTrail_of_push. case_decide as Hd; [subst a|]; reflexivity.
      * reflexivity.
      * split; [reflexivity|]. left. simpl.
        unfold owned_by. rewrite Hnew. simpl. rewrite N.eqb_refl. auto.
  - (* grantAccess *)
    destruct Htab as [Hu Ho Hi Hp Ha]. split; try assumption.
    + intros p0 d0 x. unfold granted_state; simpl.
      rewrite lookup_insert_Some. intros [[Hk <-] | [_ H]]; [|apply (Hp _ _ _ H)].
      injection Hk as <- <-. simpl.
      split; [assumption|]. split; [assumption|]. split; [reflexivity|].
      unfold expiry_of. destruct Ht as [-> | [Hpos Hsum]]; [left; reflexivity|].
      right. destruct (N.ltb_spec 0 t); lia.
    + apply (audit_push_tables s _ e
               (AuditLog.mk (msg_sender e) 0 (block_timestamp e) "GRANT_ACCESS"));
        try assumption.
      * intros a. unfold granted_state.
        change (auditTrail_of (emit ?ev ?x) a) with (auditTrail_of x a).
        rewrite auditTrail_of_push. case_decide as Hd; [subst a|]; reflexivity.
      * reflexivity.
      * reflexivity.
      * split; [reflexivity|]. right; left. auto.
  - (* revokeAccess *)
    destruct Htab as [Hu Ho Hi Hp Ha]. split; try assumption.
    + intros p0 d0 x. unfold revoked_state; simpl.
      rewrite lookup_insert_Some. intros [[Hk <-] | [_ H]]; [|apply (Hp _ _ _ H)].
      injection Hk as <- <-. simpl.
      apply permission_active_Some, Hp in Hact. exact Hact.
    + apply (audit_push_tables s _ e
               (AuditLog.mk (msg_sender e) 0 (block_timestamp e) "REVOKE_ACCESS"));
        try assumption.
      * intros a. unfold revoked_state.
        change (auditTrail_of (emit ?ev ?x) a) with (auditTrail_of x a).
        rewrite auditTrail_of_push. case_decide as Hd; [subst a|]; reflexivity.
      * reflexivity.
      * reflexivity.
      * split; [reflexivity|]. right; right. auto.
  - (* toggleEmergencyMode *)
    destruct Htab as [Hu Ho Hi Hp Ha]. split; assumption.
Qed.

Lemma step_tables dep s tx :
  state_inv dep s -> tables_inv s -> tables_inv (step s tx).
Proof.
  destruct tx as [e c]. unfold step; simpl.
  apply (call_detail_tables dep e s c _ _ (call_detail_intro e c s)).
Qed.

Lemma run_tables dep txs : forall s,
  state_inv dep s -> tables_inv s -> tables_inv (run s txs).
Proof.
  induction txs as [|tx txs IH]; intros s Hs Ht; simpl; [assumption|].
  apply IH; [apply step_inv | apply (step_tables dep)]; assumption.
Qed.

Lemma reachable_tables e0 txs : tables_inv (run (constructor e0) txs).
Proof.
  apply (run_tables (msg_sender e0)); [apply constructor_inv | apply constructor_tables].
Qed.

(** ** Registration and user information *)

Lemma nonempty_iff n : nonempty n = true <-> n <> "".
Proof.
  unfold nonempty. destruct n; simpl.
  - split; [discriminate | congruence].
  - split; [discriminate | intros _; apply N.ltb_lt; lia].
Qed.

Lemma call_registerUser e n r s :
  call e (RegisterUser n r) s =
    if User.isRegistered (user_of s (msg_sender e)) then (Err AlreadyRegistered, s)
    else if negb (UserRole_eqb r Patient || UserRole_eqb r Doctor)
    then (Err InvalidRole, s)
    else if negb (nonempty n) then (Err EmptyName, s)
    else (Ok RUnit, registered_state e n r s).
Proof.
  unfold call, dispatch, emap, bind, ret. rewrite registerUser_eq.
  repeat (match goal with |- context [if ?b then _ else _] => destruct b end;
          simpl; try reflexivity).
Qed.

Lemma call_createRecord e h t d s :
  call e (CreateRecord h t d) s =
    if negb (User.isRegistered (user_of s (msg_sender e))) then (Err NotRegistered, s)
    else if negb (UserRole_eqb (User.role (user_of s (msg_sender e))) Patient)
    then (Err OnlyPatients, s)
    else if negb (nonempty h) then (Err EmptyPayloadReference, s)
    else if negb (recordCounter s + 1 <=? MAX_UINT256) then (Err (Panic 0x11), s)
    else (Ok (RUint (recordCounter s + 1)), created_state e h t d s).
Proof.
  unfold call, dispatch, emap, bind, ret. rewrite createRecord_eq.
  repeat (match goal with |- context [if ?b then _ else _] => destruct b end;
          simpl; try reflexivity).
Qed.

Lemma call_grantAccess e d t p s :
  call e (GrantAccess d t p) s =
    if negb (User.isRegistered (user_of s (msg_sender e))) then (Err NotRegistered, s)
    else if negb (UserRole_eqb (User.role (user_of s (msg_sender e))) Patient)
    then (Err OnlyPatients, s)
    else if negb (UserRole_eqb (User.role (user_of s d)) Doctor)
    then (Err GranteeNotDoctor, s)
    else if negb (User.isRegistered (user_of s d)) then (Err GranteeNotRegistered, s)
    else if (0 <? t) && negb (block_timestamp e + t <=? MAX_UINT256)
    then (Err (Panic 0x11), s)
    else (Ok RUnit, granted_state e d (expiry_of (block_timestamp e) t) p s).
Proof.
  unfold call, dispatch, emap, bind, ret. rewrite grantAccess_eq.
  repeat (match goal with |- context [if ?b then _ else _] => destruct b end;
          simpl; try reflexivity).
Qed.

Lemma call_revokeAccess e d s :
  call e (RevokeAccess d) s =
    if negb (User.isRegistered (user_of s (msg_sender e))) then (Err NotRegistered, s)
    else if negb (UserRole_eqb (User.role (user_of s (msg_sender e))) Patient)
    then (Err OnlyPatients, s)
    else if negb (AccessPermission.isActive (permission_of s (msg_sender e) d))
    then (Err NoActivePermission, s)
    else (Ok RUnit, revoked_state e d s).
Proof.
  unfold call, dispatch, emap, bind, ret. rewrite revokeAccess_eq.
  repeat (match goal with |- context [if ?b then _ else _] => destruct b end;
          simpl; try reflexivity).
Qed.

Lemma call_toggleEmergencyMode e s :
  call e ToggleEmergencyMode s =
    if msg_sender e =? admin s then (Ok RUnit, toggled_state s)
    else (Err AdminOnly, s).
Proof.
  unfold call, dispatch, emap, bind, ret. rewrite toggleEmergencyMode_eq.
  destruct (_ =? _); reflexivity.
Qed.

(** X1. Once [registerUser(name, role)] has succeeded for an identity,
    [getUserInfo] of that identity returns that name, that role, the
    registered flag and the time of the registration, after any later
    calls by anybody. *)
Theorem registerUser_then_getUserInfo e n r s txs :
  fst (call e (RegisterUser n r) s) = Ok RUnit ->
  getUserInfo (msg_sender e) (run s ((e, RegisterUser n r) :: txs))
    = Ok (n, r, true, block_timestamp e).
Proof.
  intros Hok. simpl run.
  assert (Hstep : user_of (step s (e, RegisterUser n r)) (msg_sender e)
            = User.mk (msg_sender e) n r true (block_timestamp e)).
  { unfold step. simpl fst. simpl snd. revert Hok. rewrite call_registerUser.
    repeat (match goal with |- context [if ?b then _ else _] => destruct b end;
            simpl; try discriminate).
    intros _. rewrite user_of_registered_state.
    case_decide; [reflexivity | congruence]. }
  unfold getUserInfo.
  rewrite run_user_stable; rewrite Hstep; reflexivity.
Qed.

(** X2. [registerUser] succeeds exactly when the caller is not yet
    registered, the role asked for is Patient or Doctor, and the name is
    not empty. For an unregistered caller the roles None and Admin are
    refused with "Invalid role", whatever the name, and an empty name with
    a valid role is refused with "Name cannot be empty"; a refused call
    has written nothing. *)
Theorem registerUser_validation e n r s :
  let caller := msg_sender e in
  (fst (call e (RegisterUser n r) s) = Ok RUnit
     <-> User.isRegistered (user_of s caller) = false
         /\ (r = Patient \/ r = Doctor) /\ n <> "")
  /\ (User.isRegistered (user_of s caller) = false ->
      r = None_ \/ r = Admin ->
      registerUser e n r s = (Err InvalidRole, s))
  /\ (User.isRegistered (user_of s caller) = false ->
      r = Patient \/ r = Doctor ->
      n = "" ->
      registerUser e n r s = (Err EmptyName, s))
  /\ (forall er, fst (call e (RegisterUser n r) s) = Err er ->
                 snd (registerUser e n r s) = s).
Proof.
  intros caller. rewrite call_registerUser, registerUser_eq. fold caller.
  pose proof (nonempty_iff n) as Hn.
  destruct (User.isRegistered (user_of s caller)); simpl.
  - repeat split; try discriminate; intros; try tauto.
    destruct H as [H _]. discriminate.
  - destruct r; simpl; destruct (nonempty n); simpl;
      repeat split; try discriminate; try tauto; try reflexivity;
      try (intros; intuition congruence).
Qed.

Lemma user_of_unregistered s a :
  tables_inv s ->
  User.isRegistered (user_of s a) = false -> user_of s a = User.zero.
Proof.
  intros Htab. unfold user_of.
  destruct (users s !! a) as [u|] eqn:Hu; simpl; [|reflexivity].
  destruct (tinv_users _ Htab a u Hu) as [Hreg _]. congruence.
Qed.

Lemma user_of_deployer e0 txs :
  user_of (run (constructor e0) txs) (msg_sender e0)
    = User.mk (msg_sender e0) "System Admin" Admin true (block_timestamp e0).
Proof.
  assert (H0 : user_of (constructor e0) (msg_sender e0)
            = User.mk (msg_sender e0) "System Admin" Admin true (block_timestamp e0)).
  { unfold user_of, constructor; simpl. rewrite lookup_insert_eq. reflexivity. }
  rewrite run_user_stable; rewrite H0; reflexivity.
Qed.

(** X3. In the state reached by any history, [getUserInfo] of an identity
    that is not registered returns the zero value (empty name, role None,
    not registered, time 0); of a registered identity it returns a
    non-empty name and a role other than None, the role being Admin for
    the deploying identity and for no other; and of the deploying identity
    it returns "System Admin", Admin and the deployment time, for ever. *)
Theorem getUserInfo_reachable e0 txs a :
  let s := run (constructor e0) txs in
  (User.isRegistered (user_of s a) = false ->
     getUserInfo a s = Ok ("", None_, false, 0))
  /\ (User.isRegistered (user_of s a) = true ->
      exists name role time,
        getUserInfo a s = Ok (name, role, true, time)
        /\ name <> "" /\ role <> None_
        /\ (role = Admin <-> a = msg_sender e0))
  /\ getUserInfo (msg_sender e0) s
     = Ok ("System Admin", Admin, true, block_timestamp e0).
Proof.
  intros s.
  pose proof (reachable_inv e0 txs) as Hinv. fold s in Hinv.
  pose proof (reachable_tables e0 txs) as Htab. fold s in Htab.
  split; [|split].
  - intros Hun. unfold getUserInfo.
    rewrite (user_of_unregistered s a Htab Hun). reflexivity.
  - intros Hreg. unfold getUserInfo. rewrite Hreg.
    eexists _, _, _. split; [reflexivity|]. split; [|split].
    + unfold user_of in *. destruct (users s !! a) as [u|] eqn:Hu; simpl in *;
        [|discriminate].
      destruct (tinv_users _ Htab a u Hu) as (_ & _ & Hname).
      apply nonempty_iff. assumption.
    + apply (inv_registered _ _ Hinv). assumption.
    + apply (inv_one_admin _ _ Hinv).
  - unfold getUserInfo. subst s. rewrite user_of_deployer. reflexivity.
Qed.

(** ** Creating and reading records *)

Lemma isAuthorized_owner e s rec :
  isAuthorized e s (MedicalRecord.patientAddress rec) rec = true.
Proof. unfold isAuthorized. rewrite N.eqb_refl. reflexivity. Qed.

(** X4. When [createRecord] succeeds in a reachable state it returns the
    record counter plus one, and from then on, after any later calls and
    at any time, [getRecord] of that id called by the creator returns the
    creator as owner, the payload reference, type and description given,
    and the creation time. *)
Theorem createRecord_then_getRecord e0 txs e h t d id txs' e' :
  let s := run (constructor e0) txs in
  fst (call e (CreateRecord h t d) s) = Ok (RUint id) ->
  msg_sender e' = msg_sender e ->
  id = recordCounter s + 1
  /\ getRecord e' id (run s ((e, CreateRecord h t d) :: txs'))
     = Ok (msg_sender e, h, t, d, block_timestamp e).
Proof.
  intros s Hok Hsender.
  pose proof (reachable_inv e0 txs) as Hinv. fold s in Hinv.
  assert (Hstep : step s (e, CreateRecord h t d) = created_state e h t d s
                  /\ id = recordCounter s + 1).
  { unfold step. simpl fst. simpl snd. revert Hok. rewrite call_createRecord.
    repeat (match goal with |- context [if ?b then _ else _] => destruct b end;
            simpl; try discriminate).
    intros [= <-]. auto. }
  destruct Hstep as [Hstep ->]. split; [reflexivity|].
  simpl run. rewrite Hstep.
  assert (Hrec : record_of (created_state e h t d s) (recordCounter s + 1)
            = MedicalRecord.mk (recordCounter s + 1) (msg_sender e) h t d
                (block_timestamp e) true).
  { rewrite record_of_created_state. case_decide; [reflexivity | congruence]. }
  rewrite getRecord_eq. cbv zeta.
  rewrite (run_record_stable (msg_sender e0));
    [| rewrite <- Hstep; apply step_inv, Hinv | rewrite Hrec; reflexivity].
  rewrite Hrec. simpl. rewrite Hsender.
  rewrite (isAuthorized_owner e' _
             (MedicalRecord.mk (recordCounter s + 1) (msg_sender e) h t d
                (block_timestamp e) true)).
  reflexivity.
Qed.

(** X5. In the state reached by any history, [createRecord] succeeds
    exactly when the caller's role is Patient, the payload reference is
    not empty and the record counter is below the largest [uint256]. An
    identity without a role fails with "User not registered", a Doctor and
    the deploying admin fail with "Only patients allowed", and a Patient
    with an empty payload reference fails with "IPFS hash required"; each
    failing call has written nothing. *)
Theorem createRecord_validation e0 txs e h t d :
  let s := run (constructor e0) txs in
  let caller := msg_sender e in
  ((exists id, fst (call e (CreateRecord h t d) s) = Ok (RUint id))
     <-> User.role (user_of s caller) = Patient /\ h <> ""
         /\ recordCounter s < MAX_UINT256)
  /\ (User.role (user_of s caller) = None_ ->
      createRecord e h t d s = (Err NotRegistered, s))
  /\ (User.role (user_of s caller) = Doctor \/ caller = msg_sender e0 ->
      createRecord e h t d s = (Err OnlyPatients, s))
  /\ (User.role (user_of s caller) = Patient -> h = "" ->
      createRecord e h t d s = (Err EmptyPayloadReference, s)).
Proof.
  intros s caller.
  pose proof (reachable_inv e0 txs) as Hinv. fold s in Hinv.
  pose proof (inv_registered _ _ Hinv caller) as Hreg.
  pose proof (inv_one_admin _ _ Hinv caller) as Hadm.
  pose proof (nonempty_iff h) as Hh.
  rewrite call_createRecord, createRecord_eq. fold caller.
  assert (Hin : forall r0, User.role (user_of s caller) = r0 -> r0 <> None_ ->
                  User.isRegistered (user_of s caller) = true).
  { intros r0 H0 Hne. apply Hreg. congruence. }
  split; [|split; [|split]].
  - split.
    + intros [i Hi]. revert Hi.
      destruct (User.isRegistered (user_of s caller)); simpl; [|discriminate].
      destruct (UserRole_eqb _ Patient) eqn:Hp; simpl; [|discriminate].
      destruct (nonempty h) eqn:Hn; simpl; [|discriminate].
      destruct (N.leb_spec (recordCounter s + 1) MAX_UINT256); simpl;
        [|discriminate].
      intros _. apply UserRole_eqb_eq in Hp.
      split; [assumption|]. split; [apply Hh; reflexivity | lia].
    + intros (Hp & Hne & Hlt).
      rewrite (Hin Patient Hp) by discriminate. rewrite Hp. simpl.
      rewrite (proj2 Hh Hne). simpl.
      destruct (N.leb_spec (recordCounter s + 1) MAX_UINT256); [|lia].
      simpl. eauto.
  - intros Hnone.
    destruct (User.isRegistered (user_of s caller)) eqn:Hr; simpl; [|reflexivity].
    exfalso. apply (proj1 Hreg); [reflexivity | exact Hnone].
  - intros [Hd | Hd].
    + rewrite (Hin Doctor Hd) by discriminate. rewrite Hd. reflexivity.
    + apply Hadm in Hd. rewrite (Hin Admin Hd) by discriminate. rewrite Hd.
      reflexivity.
  - intros Hp ->. rewrite (Hin Patient Hp) by discriminate. rewrite Hp.
    reflexivity.
Qed.

Lemma owned_by_iff s a id :
  owned_by s a id = true <->
    MedicalRecord.exists_ (record_of s id) = true
    /\ MedicalRecord.patientAddress (record_of s id) = a.
Proof. unfold owned_by. rewrite andb_true_iff, N.eqb_eq. reflexivity. Qed.

Lemma elem_of_index dep s a id :
  state_inv dep s -> tables_inv s ->
  id ∈ patientRecords_of s a <-> owned_by s a id = true.
Proof.
  intros Hinv Htab. rewrite (tinv_index _ Htab), elem_of_filter_bool, elem_of_ids_from.
  split; [tauto|]. intros Hown. split; [|assumption].
  apply owned_by_iff in Hown. destruct Hown as [Hex _].
  apply (inv_exists _ _ Hinv) in Hex. lia.
Qed.

(** X6. In the state reached by any history, [getPatientRecordIds] of an
    address returns, in ascending order, exactly the ids of the existing
    records whose owner is that address; for an address whose role is not
    Patient the list is empty. *)
Theorem getPatientRecordIds_exact e0 txs p :
  let s := run (constructor e0) txs in
  exists ids,
    getPatientRecordIds p s = Ok ids
    /\ StronglySorted N.lt ids
    /\ (forall id,
          id ∈ ids <->
            MedicalRecord.exists_ (record_of s id) = true
            /\ MedicalRecord.patientAddress (record_of s id) = p)
    /\ (User.role (user_of s p) <> Patient -> ids = []).
Proof.
  intros s.
  pose proof (reachable_inv e0 txs) as Hinv. fold s in Hinv.
  pose proof (reachable_tables e0 txs) as Htab. fold s in Htab.
  exists (patientRecords_of s p). split; [reflexivity|].
  assert (Hmem : forall id, id ∈ patientRecords_of s p <->
            MedicalRecord.exists_ (record_of s id) = true
            /\ MedicalRecord.patientAddress (record_of s id) = p).
  { intros id. rewrite (elem_of_index _ s p id Hinv Htab). apply owned_by_iff. }
  split; [|split].
  - rewrite (tinv_index _ Htab). apply filter_sorted, ids_from_sorted.
  - exact Hmem.
  - intros Hrole. destruct (patientRecords_of s p) as [|id ids] eqn:Hl;
      [reflexivity|].
    exfalso. apply Hrole.
    destruct (proj1 (Hmem id)) as [Hex Hown]; [left|].
    rewrite <- Hown. apply (tinv_owner _ Htab). assumption.
Qed.

(** X7. In the state reached by any history, every id that
    [getPatientRecordIds] lists for a patient can be read by that patient:
    [getRecord] called by the patient, at any time, returns a record whose
    owner is the patient. *)
Theorem getPatientRecordIds_all_readable e0 txs e :
  let s := run (constructor e0) txs in
  let p := msg_sender e in
  exists ids,
    getPatientRecordIds p s = Ok ids
    /\ Forall (fun id => exists h t d ts, getRecord e id s = Ok (p, h, t, d, ts)) ids.
Proof.
  intros s p.
  pose proof (reachable_inv e0 txs) as Hinv. fold s in Hinv.
  pose proof (reachable_tables e0 txs) as Htab. fold s in Htab.
  exists (patientRecords_of s p). split; [reflexivity|].
  apply Forall_forall. intros id Hin.
  apply (elem_of_index _ s p id Hinv Htab), owned_by_iff in Hin.
  destruct Hin as [Hex Hown].
  rewrite getRecord_eq. cbv zeta. rewrite Hex. simpl.
  replace (isAuthorized e s (msg_sender e) (record_of s id)) with true.
  - rewrite Hown. eauto.
  - symmetry. fold p. rewrite <- Hown. apply isAuthorized_owner.
Qed.

Lemma access_valid_active e s p d :
  access_valid e s p d = true ->
  AccessPermission.isActive (permission_of s p d) = true.
Proof.
  unfold access_valid, checkAccess. rewrite andb_true_iff. tauto.
Qed.

(** X8. In the state reached by any history, whoever [getRecord] lets
    through is the record's owner, or the deploying admin, or an identity
    with role Doctor that either holds a valid grant from the owner or
    calls while emergency mode is on. So [getRecord] lets through no
    identity without a role and no Patient other than the owner: on an
    existing record they get "Unauthorized access". This gate is
    [getRecord]'s alone: the getter of the public mapping [records]
    returns the stored fields to any caller. *)
Theorem getRecord_readers e0 txs e id :
  let s := run (constructor e0) txs in
  let caller := msg_sender e in
  let owner := MedicalRecord.patientAddress (record_of s id) in
  (forall r, getRecord e id s = Ok r ->
     caller = owner
     \/ caller = msg_sender e0
     \/ (User.role (user_of s caller) = Doctor
         /\ (access_valid e s owner caller = true \/ emergencyMode s = true)))
  /\ (User.role (user_of s caller) = None_
      \/ (User.role (user_of s caller) = Patient /\ caller <> owner) ->
      (forall r, getRecord e id s <> Ok r)
      /\ (MedicalRecord.exists_ (record_of s id) = true ->
          getRecord e id s = Err Unauthorized))
  /\ records_getter id s
     = Ok (MedicalRecord.recordId (record_of s id), owner,
           MedicalRecord.ipfsHash (record_of s id),
           MedicalRecord.recordType (record_of s id),
           MedicalRecord.description (record_of s id),
           MedicalRecord.timestamp (record_of s id),
           MedicalRecord.exists_ (record_of s id)).
Proof.
  intros s caller owner.
  pose proof (reachable_inv e0 txs) as Hinv. fold s in Hinv.
  pose proof (reachable_tables e0 txs) as Htab. fold s in Htab.
  assert (Hreaders : forall r, getRecord e id s = Ok r ->
            MedicalRecord.exists_ (record_of s id) = true
            /\ (caller = owner
                \/ caller = msg_sender e0
                \/ (User.role (user_of s caller) = Doctor
                    /\ (access_valid e s owner caller = true
                        \/ emergencyMode s = true)))).
  { intros r. rewrite getRecord_eq. cbv zeta.
    destruct (MedicalRecord.exists_ (record_of s id)); simpl; [|discriminate].
    destruct (isAuthorized e s (msg_sender e) (record_of s id)) eqn:Hauth;
      [|discriminate].
    intros _. split; [reflexivity|].
    unfold isAuthorized in Hauth. fold caller owner in Hauth.
    rewrite !orb_true_iff, andb_true_iff, !N.eqb_eq, UserRole_eqb_eq in Hauth.
    destruct Hauth as [[[H | H] | [H1 H2]] | H]; auto.
    - right; right. split; [|auto].
      apply access_valid_active, permission_active_Some in H.
      apply (tinv_permission _ Htab) in H. tauto.
    - right; left. rewrite H. apply (inv_admin _ _ Hinv). }
  assert (Hnone : User.role (user_of s caller) = None_
                  \/ (User.role (user_of s caller) = Patient /\ caller <> owner) ->
                  forall r, getRecord e id s <> Ok r).
  { intros Hwho r Hok.
    destruct (Hreaders r Hok) as [Hex [Hown | [Hdep | [Hdoc _]]]].
    - pose proof (tinv_owner _ Htab id Hex) as Hpat. fold owner in Hpat.
      rewrite <- Hown in Hpat.
      destruct Hwho as [Hn | [_ Hne]]; [congruence | contradiction].
    - apply (inv_one_admin _ _ Hinv) in Hdep.
      destruct Hwho as [Hn | [Hp _]]; congruence.
    - destruct Hwho as [Hn | [Hp _]]; congruence. }
  split; [intros r Hok; apply (Hreaders r Hok)|]. split; [|reflexivity].
  intros Hwho. split; [apply Hnone; assumption|].
  intros Hex. specialize (Hnone Hwho). revert Hnone.
  rewrite getRecord_eq. cbv zeta. rewrite Hex. simpl.
  destruct (isAuthorized e s (msg_sender e) (record_of s id)); [|reflexivity].
  intros Hnone. exfalso. eapply Hnone. reflexivity.
Qed.

(** ** Grants *)

Lemma permission_of_granted_state e d x p s p' d' :
  permission_of (granted_state e d x p s) p' d' =
    if decide ((p', d') = (msg_sender e, d))
    then AccessPermission.mk d (block_timestamp e) x true p
    else permission_of s p' d'.
Proof.
  unfold granted_state.
  change (permission_of (emit ?ev ?y) p' d') with (permission_of y p' d').
  change (permission_of (push_auditTrail ?a ?l ?y) p' d')
    with (permission_of y p' d').
  apply permission_of_set_permission.
Qed.

Lemma permission_of_revoked_state e d s p' d' :
  permission_of (revoked_state e d s) p' d' =
    if decide ((p', d') = (msg_sender e, d))
    then AccessPermission.set_isActive false (permission_of s (msg_sender e) d)
    else permission_of s p' d'.
Proof.
  unfold revoked_state.
  change (permission_of (emit ?ev ?y) p' d') with (permission_of y p' d').
  change (permission_of (push_auditTrail ?a ?l ?y) p' d')
    with (permission_of y p' d').
  apply permission_of_set_permission.
Qed.

Lemma call_detail_ungranted p d e s c r s' :
  call_detail e s c r s' ->
  permissions s !! (p, d) = None ->
  is_grant p d (e, c, r) = false ->
  permissions s' !! (p, d) = None.
Proof.
  intros Hcd Hnone Hg.
  destruct Hcd as [ | | | | d0 t0 p0 _ _ _ _ _ | d0 _ _ Hact | ]; try assumption.
  - simpl in Hg. unfold granted_state; simpl.
    rewrite lookup_insert_ne; [assumption|].
    intros [= Hp Hd]. subst. rewrite !N.eqb_refl in Hg. discriminate.
  - unfold revoked_state; simpl.
    rewrite lookup_insert_ne; [assumption|].
    intros [= Hp Hd]. subst.
    apply permission_active_Some in Hact. congruence.
Qed.

Lemma call_detail_granted_stays k e s c r s' :
  call_detail e s c r s' ->
  is_Some (permissions s !! k) -> is_Some (permissions s' !! k).
Proof.
  intros Hcd Hsome.
  destruct Hcd; try assumption.
  - unfold granted_state; simpl. apply lookup_insert_is_Some'. right. assumption.
  - unfold revoked_state; simpl. apply lookup_insert_is_Some'. right. assumption.
Qed.

Lemma call_detail_granted_now p d e s c r s' :
  call_detail e s c r s' ->
  is_grant p d (e, c, r) = true ->
  is_Some (permissions s' !! (p, d)).
Proof.
  intros Hcd Hg.
  destruct Hcd as [c0 er | c0 v Hv | | | | | ]; simpl in Hg; try discriminate.
  - destruct c0; discriminate.
  - destruct c0; try discriminate.
  - apply andb_true_iff in Hg. destruct Hg as [Hp Hd].
    apply N.eqb_eq in Hp, Hd. subst.
    unfold granted_state; simpl. rewrite lookup_insert_eq. eauto.
Qed.

Lemma run_granted_stays k txs : forall s,
  is_Some (permissions s !! k) -> is_Some (permissions (run s txs) !! k).
Proof.
  induction txs as [|[e c] txs IH]; intros s Hs; simpl; [assumption|].
  apply IH.
  apply (call_detail_granted_stays k e s c _ _ (call_detail_intro e c s)), Hs.
Qed.

Lemma run_grants p d txs : forall s,
  permissions s !! (p, d) = None ->
  if existsb (is_grant p d) (outcomes s txs)
  then is_Some (permissions (run s txs) !! (p, d))
  else permissions (run s txs) !! (p, d) = None.
Proof.
  induction txs as [|[e c] txs IH]; intros s Hnone; [exact Hnone|].
  pose proof (call_detail_intro e c s) as Hcd.
  change (outcomes s ((e, c) :: txs))
    with ((e, c, fst (call e c s)) :: outcomes (step s (e, c)) txs).
  change (run s ((e, c) :: txs)) with (run (step s (e, c)) txs).
  cbn [existsb].
  destruct (is_grant p d (e, c, fst (call e c s))) eqn:Hg; cbn [orb].
  - apply run_granted_stays.
    apply (call_detail_granted_now p d e s c _ _ Hcd Hg).
  - apply IH. apply (call_detail_ungranted p d e s c _ _ Hcd Hnone Hg).
Qed.

(** X9. In the state reached by any history: if the history holds no
    successful [grantAccess] from a patient to a doctor, [checkAccess] of
    the pair returns (false, 0, 0, empty purpose) at every time; if it
    holds one, the pair's patient has role Patient, its doctor has role
    Doctor, and the stored [expiresAt] is 0 or later than [grantedAt]. In
    particular a valid [checkAccess] always names a Patient and a Doctor. *)
Theorem checkAccess_reachable e0 txs e p d :
  let s := run (constructor e0) txs in
  let os := outcomes (constructor e0) txs in
  (existsb (is_grant p d) os = false ->
     checkAccess e p d s = Ok (false, 0, 0, ""))
  /\ (existsb (is_grant p d) os = true ->
      User.role (user_of s p) = Patient
      /\ User.role (user_of s d) = Doctor
      /\ exists valid g x purpose,
           checkAccess e p d s = Ok (valid, g, x, purpose)
           /\ (x = 0 \/ g < x))
  /\ (access_valid e s p d = true ->
      User.role (user_of s p) = Patient /\ User.role (user_of s d) = Doctor).
Proof.
  intros s os.
  pose proof (reachable_tables e0 txs) as Htab. fold s in Htab.
  pose proof (run_grants p d txs (constructor e0) (lookup_empty _)) as Hrun.
  fold s os in Hrun.
  split; [|split].
  - intros Hno. rewrite Hno in Hrun.
    unfold checkAccess, permission_of. rewrite Hrun. reflexivity.
  - intros Hyes. rewrite Hyes in Hrun. destruct Hrun as [x Hx].
    destruct (tinv_permission _ Htab p d x Hx) as (Hp & Hd & _ & Hexp).
    split; [assumption|]. split; [assumption|].
    unfold checkAccess. rewrite (permission_of_Some s p d x Hx).
    eexists _, _, _, _. split; [reflexivity | exact Hexp].
  - intros Hvalid.
    apply access_valid_active, permission_active_Some in Hvalid.
    apply (tinv_permission _ Htab) in Hvalid. tauto.
Qed.

(** What [getRecord] answers a doctor about a patient's record, in a state
    where the pair's roles are known. *)
Lemma getRecord_by_doctor dep e s id p d :
  state_inv dep s ->
  owned_by s p id = true ->
  User.role (user_of s p) = Patient ->
  User.role (user_of s d) = Doctor ->
  msg_sender e = d ->
  getRecord e id s =
    if access_valid e s p d || emergencyMode s
    then Ok (p, MedicalRecord.ipfsHash (record_of s id),
             MedicalRecord.recordType (record_of s id),
             MedicalRecord.description (record_of s id),
             MedicalRecord.timestamp (record_of s id))
    else Err Unauthorized.
Proof.
  intros Hinv Hown Hp Hd Hsender.
  apply owned_by_iff in Hown. destruct Hown as [Hex Hown].
  rewrite getRecord_eq. cbv zeta. rewrite Hex. simpl.
  unfold isAuthorized. rewrite Hsender, Hown, Hd. simpl.
  assert (Hne : (d =? p) = false).
  { apply N.eqb_neq. intros ->. congruence. }
  assert (Hna : (d =? admin s) = false).
  { apply N.eqb_neq. intros Ha.
    assert (User.role (user_of s d) = Admin).
    { apply (inv_one_admin _ _ Hinv). rewrite Ha. apply (inv_admin _ _ Hinv). }
    congruence. }
  rewrite Hne, Hna, andb_true_r, orb_false_r. simpl.
  reflexivity.
Qed.

Lemma expiry_of_valid now t now' :
  ((expiry_of now t =? 0) || (now' <? expiry_of now t)) = true
  <-> t = 0 \/ now' < now + t.
Proof.
  unfold expiry_of. rewrite orb_true_iff, N.eqb_eq, N.ltb_lt.
  destruct (N.ltb_spec 0 t); lia.
Qed.

(** X10. After a patient's [grantAccess] to a doctor with duration [t]
    has succeeded at time [now] in a reachable state, [checkAccess] of the
    pair is valid at a time [now'] exactly when [t = 0] or
    [now' < now + t]; and the doctor's [getRecord] on a record of that
    patient succeeds exactly when the grant is valid in this sense or
    emergency mode is on, and fails with "Unauthorized access" otherwise.
    No call is needed at the boundary: the grant lapses by time alone. *)
Theorem grantAccess_window e0 txs e d t purpose e' id :
  let s := run (constructor e0) txs in
  let s' := snd (call e (GrantAccess d t purpose) s) in
  let live := t = 0 \/ block_timestamp e' < block_timestamp e + t in
  fst (call e (GrantAccess d t purpose) s) = Ok RUnit ->
  msg_sender e' = d ->
  owned_by s (msg_sender e) id = true ->
  (access_valid e' s' (msg_sender e) d = true <-> live)
  /\ ((exists r, getRecord e' id s' = Ok r) <-> live \/ emergencyMode s = true)
  /\ (~ (live \/ emergencyMode s = true) -> getRecord e' id s' = Err Unauthorized).
Proof.
  intros s s' live Hok Hsender Hown. subst d.
  set (d := msg_sender e') in *.
  pose proof (reachable_inv e0 txs) as Hinv. fold s in Hinv.
  assert (Hgrant : User.role (user_of s (msg_sender e)) = Patient
                   /\ User.role (user_of s d) = Doctor
                   /\ s' = granted_state e d (expiry_of (block_timestamp e) t)
                             purpose s).
  { pose proof (call_detail_intro e (GrantAccess d t purpose) s) as Hcd.
    fold s' in Hcd. rewrite Hok in Hcd.
    inversion Hcd; [discriminate | auto]. }
  destruct Hgrant as (Hrole & Hdoc & Hs').
  assert (Hvalid : access_valid e' s' (msg_sender e) d = true <-> live).
  { rewrite Hs'. unfold access_valid, checkAccess.
    rewrite permission_of_granted_state.
    case_decide as Hk; [|congruence]. simpl.
    apply expiry_of_valid. }
  assert (Hinv' : state_inv (msg_sender e0) s').
  { apply (call_outcome_inv _ e s (GrantAccess d t purpose) (Ok RUnit));
      [|assumption].
    rewrite <- Hok. apply call_outcome_intro. }
  assert (Hget : getRecord e' id s' =
            if access_valid e' s' (msg_sender e) d || emergencyMode s
            then Ok (msg_sender e, MedicalRecord.ipfsHash (record_of s id),
                     MedicalRecord.recordType (record_of s id),
                     MedicalRecord.description (record_of s id),
                     MedicalRecord.timestamp (record_of s id))
            else Err Unauthorized).
  { rewrite (getRecord_by_doctor (msg_sender e0) e' s' id (msg_sender e) d Hinv');
      try rewrite Hs'; try reflexivity; assumption. }
  split; [exact Hvalid|].
  destruct (access_valid e' s' (msg_sender e) d) eqn:Hv; simpl in Hget.
  - split; [|intros Hn; exfalso; apply Hn; left; apply Hvalid; reflexivity].
    split; [intros _; left; apply Hvalid; reflexivity | rewrite Hget; eauto].
  - destruct (emergencyMode s) eqn:He.
    + split; [|intros Hn; exfalso; apply Hn; right; reflexivity].
      split; [intros _; right; reflexivity | rewrite Hget; eauto].
    + split; [|intros _; exact Hget].
      rewrite Hget. split; [intros [r Hr]; discriminate|].
      intros [Hl | Hl]; [|discriminate].
      apply Hvalid in Hl. discriminate.
Qed.

(** X11. In the state reached by any history, [grantAccess] succeeds
    exactly when the caller's role is Patient, the grantee's role is
    Doctor, and the duration is 0 or the current time plus the duration
    fits in a [uint256]. A Patient granting to an address whose role is
    not Doctor (itself included) fails with "Can only grant to doctors";
    a positive duration that overflows the time fails with [Panic(0x11)]
    instead of wrapping around; each failing call has written nothing. *)
Theorem grantAccess_validation e0 txs e d t purpose :
  let s := run (constructor e0) txs in
  let caller := msg_sender e in
  (fst (call e (GrantAccess d t purpose) s) = Ok RUnit
     <-> User.role (user_of s caller) = Patient
         /\ User.role (user_of s d) = Doctor
         /\ (t = 0 \/ block_timestamp e + t <= MAX_UINT256))
  /\ (User.role (user_of s caller) = Patient ->
      User.role (user_of s d) <> Doctor \/ d = caller ->
      grantAccess e d t purpose s = (Err GranteeNotDoctor, s))
  /\ (User.role (user_of s caller) = Patient ->
      User.role (user_of s d) = Doctor ->
      0 < t -> MAX_UINT256 < block_timestamp e + t ->
      grantAccess e d t purpose s = (Err (Panic 0x11), s))
  /\ (User.role (user_of s caller) <> Patient ->
      exists er, (er = NotRegistered \/ er = OnlyPatients)
                 /\ grantAccess e d t purpose s = (Err er, s)).
Proof.
  intros s caller.
  pose proof (reachable_inv e0 txs) as Hinv. fold s in Hinv.
  assert (Hin : forall a r0, User.role (user_of s a) = r0 -> r0 <> None_ ->
                  User.isRegistered (user_of s a) = true).
  { intros a r0 H0 Hne. apply (inv_registered _ _ Hinv). congruence. }
  rewrite call_grantAccess, grantAccess_eq. fold caller.
  split; [|split; [|split]].
  - split.
    + destruct (User.isRegistered (user_of s caller)); simpl; [|discriminate].
      destruct (UserRole_eqb _ Patient) eqn:Hp; simpl; [|discriminate].
      destruct (UserRole_eqb _ Doctor) eqn:Hd; simpl; [|discriminate].
      destruct (User.isRegistered (user_of s d)); simpl; [|discriminate].
      apply UserRole_eqb_eq in Hp, Hd.
      destruct (N.ltb_spec 0 t); simpl.
      * destruct (N.leb_spec (block_timestamp e + t) MAX_UINT256); simpl;
          [auto | discriminate].
      * intros _. split; [assumption|]. split; [assumption|]. left. lia.
    + intros (Hp & Hd & Ht).
      rewrite (Hin caller Patient Hp), (Hin d Doctor Hd) by discriminate.
      rewrite Hp, Hd. simpl.
      destruct (N.ltb_spec 0 t); simpl; [|reflexivity].
      destruct (N.leb_spec (block_timestamp e + t) MAX_UINT256); simpl;
        [reflexivity | lia].
  - intros Hp Hd.
    assert (Hd' : User.role (user_of s d) <> Doctor).
    { destruct Hd as [Hd | ->]; [assumption | fold caller; congruence]. }
    rewrite (Hin caller Patient Hp) by discriminate. rewrite Hp. simpl.
    apply UserRole_eqb_neq in Hd'. rewrite Hd'. reflexivity.
  - intros Hp Hd Hpos Hover.
    rewrite (Hin caller Patient Hp), (Hin d Doctor Hd) by discriminate.
    rewrite Hp, Hd. simpl.
    destruct (N.ltb_spec 0 t); [|lia]. simpl.
    destruct (N.leb_spec (block_timestamp e + t) MAX_UINT256); [lia|].
    reflexivity.
  - intros Hp. apply UserRole_eqb_neq in Hp.
    destruct (User.isRegistered (user_of s caller)); simpl.
    + rewrite Hp. simpl. exists OnlyPatients. auto.
    + exists NotRegistered. auto.
Qed.

(** X12. A [grantAccess] or [revokeAccess] call by a patient for a doctor,
    whether it succeeds or not, changes nothing for any other pair:
    [checkAccess] of every other (patient, doctor) pair returns what it
    returned before, at every time; and it leaves the users, the records,
    the patients' record lists, the record counter, the admin and the
    emergency flag as they were. *)
Theorem grant_revoke_frame e d t purpose s p' d' e' :
  let granted := snd (call e (GrantAccess d t purpose) s) in
  let revoked := snd (call e (RevokeAccess d) s) in
  (p', d') <> (msg_sender e, d) ->
  (checkAccess e' p' d' granted = checkAccess e' p' d' s
   /\ checkAccess e' p' d' revoked = checkAccess e' p' d' s)
  /\ (users granted = users s /\ records granted = records s
      /\ patientRecords granted = patientRecords s
      /\ recordCounter granted = recordCounter s
      /\ admin granted = admin s /\ emergencyMode granted = emergencyMode s)
  /\ (users revoked = users s /\ records revoked = records s
      /\ patientRecords revoked = patientRecords s
      /\ recordCounter revoked = recordCounter s
      /\ admin revoked = admin s /\ emergencyMode revoked = emergencyMode s).
Proof.
  intros granted revoked Hne.
  subst granted revoked. rewrite call_grantAccess, call_revokeAccess.
  split; [split|split].
  - repeat (match goal with |- context [if ?b then _ else _] => destruct b end;
            simpl; try reflexivity).
    unfold checkAccess. rewrite permission_of_granted_state.
    case_decide; [contradiction | reflexivity].
  - repeat (match goal with |- context [if ?b then _ else _] => destruct b end;
            simpl; try reflexivity).
    unfold checkAccess. rewrite permission_of_revoked_state.
    case_decide; [contradiction | reflexivity].
  - repeat (match goal with |- context [if ?b then _ else _] => destruct b end;
            simpl; try (repeat split; reflexivity)).
  - repeat (match goal with |- context [if ?b then _ else _] => destruct b end;
            simpl; try (repeat split; reflexivity)).
Qed.

(** X13. After a patient's [revokeAccess] for a doctor has succeeded in a
    reachable state, [checkAccess] of the pair returns not valid at every
    time, with the [grantedAt], [expiresAt] and [purpose] of the revoked
    grant still stored; a second [revokeAccess] by the patient for the
    doctor fails with "No active permission"; and the doctor's [getRecord]
    on a record of the patient fails with "Unauthorized access" unless
    emergency mode is on, in which case it succeeds. *)
Theorem revokeAccess_then e0 txs e d e' id :
  let s := run (constructor e0) txs in
  let s' := snd (call e (RevokeAccess d) s) in
  let old := permission_of s (msg_sender e) d in
  fst (call e (RevokeAccess d) s) = Ok RUnit ->
  msg_sender e' = d ->
  owned_by s (msg_sender e) id = true ->
  checkAccess e' (msg_sender e) d s'
    = Ok (false, AccessPermission.grantedAt old, AccessPermission.expiresAt old,
          AccessPermission.purpose old)
  /\ (forall e2, msg_sender e2 = msg_sender e ->
        call e2 (RevokeAccess d) s' = (Err NoActivePermission, s'))
  /\ (emergencyMode s = false -> getRecord e' id s' = Err Unauthorized)
  /\ (emergencyMode s = true -> exists r, getRecord e' id s' = Ok r).
Proof.
  intros s s' old Hok Hsender Hown.
  pose proof (reachable_inv e0 txs) as Hinv. fold s in Hinv.
  pose proof (reachable_tables e0 txs) as Htab. fold s in Htab.
  assert (Hrev : User.isRegistered (user_of s (msg_sender e)) = true
                 /\ User.role (user_of s (msg_sender e)) = Patient
                 /\ AccessPermission.isActive old = true
                 /\ s' = revoked_state e d s).
  { pose proof (call_detail_intro e (RevokeAccess d) s) as Hcd.
    fold s' in Hcd. rewrite Hok in Hcd.
    inversion Hcd; [discriminate | auto]. }
  destruct Hrev as (Hreg & Hrole & Hact & Hs').
  assert (Hdoc : User.role (user_of s d) = Doctor).
  { apply permission_active_Some in Hact.
    apply (tinv_permission _ Htab) in Hact. tauto. }
  assert (Hperm : permission_of s' (msg_sender e) d
            = AccessPermission.set_isActive false old).
  { rewrite Hs', permission_of_revoked_state.
    case_decide; [reflexivity | congruence]. }
  assert (Hinv' : state_inv (msg_sender e0) s').
  { apply (call_outcome_inv _ e s (RevokeAccess d) (Ok RUnit)); [|assumption].
    rewrite <- Hok. apply call_outcome_intro. }
  assert (Hvalid : access_valid e' s' (msg_sender e) d = false).
  { unfold access_valid, checkAccess. rewrite Hperm. reflexivity. }
  assert (Hget : getRecord e' id s' =
            if access_valid e' s' (msg_sender e) d || emergencyMode s
            then Ok (msg_sender e, MedicalRecord.ipfsHash (record_of s id),
                     MedicalRecord.recordType (record_of s id),
                     MedicalRecord.description (record_of s id),
                     MedicalRecord.timestamp (record_of s id))
            else Err Unauthorized).
  { rewrite (getRecord_by_doctor (msg_sender e0) e' s' id (msg_sender e) d Hinv');
      try rewrite Hs'; try reflexivity; assumption. }
  rewrite Hvalid in Hget. simpl in Hget.
  split; [|split; [|split]].
  - unfold checkAccess. rewrite Hperm. reflexivity.
  - intros e2 H2. rewrite call_revokeAccess, H2, Hperm.
    replace (user_of s' (msg_sender e)) with (user_of s (msg_sender e))
      by (rewrite Hs'; reflexivity).
    rewrite Hreg, Hrole. reflexivity.
  - intros He. rewrite Hget, He. reflexivity.
  - intros He. rewrite Hget, He. eauto.
Qed.

(** ** Emergency mode and statistics *)

Lemma call_detail_emergency e s c r s' :
  call_detail e s c r s' -> c <> ToggleEmergencyMode ->
  emergencyMode s' = emergencyMode s.
Proof. intros [] Hc; try reflexivity. congruence. Qed.

Lemma step_emergency dep e c s :
  state_inv dep s ->
  emergencyMode (step s (e, c))
    = xorb (emergencyMode s) (is_toggle_by dep (e, c)).
Proof.
  intros Hinv. unfold step; simpl fst; simpl snd.
  assert (Hdec : c = ToggleEmergencyMode \/ c <> ToggleEmergencyMode)
    by (destruct c; auto; right; discriminate).
  destruct Hdec as [-> | Hc].
  - rewrite call_toggleEmergencyMode. unfold is_toggle_by; simpl.
    rewrite (inv_admin _ _ Hinv).
    destruct (msg_sender e =? dep); simpl;
      destruct (emergencyMode s); reflexivity.
  - rewrite (call_detail_emergency e s c _ _ (call_detail_intro e c s) Hc).
    replace (is_toggle_by dep (e, c)) with false
      by (destruct c; try reflexivity; congruence).
    rewrite xorb_false_r. reflexivity.
Qed.

Lemma run_emergency dep txs : forall s,
  state_inv dep s ->
  emergencyMode (run s txs)
    = xorb (emergencyMode s) (Nat.odd (toggles_by dep txs)).
Proof.
  induction txs as [|[e c] txs IH]; intros s Hinv.
  - simpl. rewrite xorb_false_r. reflexivity.
  - change (run s ((e, c) :: txs)) with (run (step s (e, c)) txs).
    rewrite IH by (apply step_inv; assumption).
    rewrite (step_emergency dep) by assumption.
    unfold toggles_by. simpl List.filter.
    destruct (is_toggle_by dep (e, c)); simpl length.
    + rewrite Nat.odd_succ, <- Nat.negb_odd.
      destruct (emergencyMode s), (Nat.odd _); reflexivity.
    + rewrite xorb_false_r. reflexivity.
Qed.

(** X14. Along any history the emergency flag is on exactly when the
    deploying admin has sent an odd number of [toggleEmergencyMode] calls:
    each of the admin's calls flips it, two in a row restore it, and a
    call from anybody else fails with "Only admin allowed" and changes
    nothing. [getStats] returns the number of records created so far and
    that flag. *)
Theorem emergencyMode_parity e0 txs :
  let s := run (constructor e0) txs in
  let os := outcomes (constructor e0) txs in
  emergencyMode s = Nat.odd (toggles_by (msg_sender e0) txs)
  /\ getStats s
     = Ok (N.of_nat (length (created_ids os)),
           Nat.odd (toggles_by (msg_sender e0) txs))
  /\ (forall e, msg_sender e <> msg_sender e0 ->
        toggleEmergencyMode e s = (Err AdminOnly, s)
        /\ call e ToggleEmergencyMode s = (Err AdminOnly, s))
  /\ (forall e, msg_sender e = msg_sender e0 ->
        fst (call e ToggleEmergencyMode s) = Ok RUnit
        /\ emergencyMode (step s (e, ToggleEmergencyMode)) = negb (emergencyMode s))
  /\ (forall e1 e2, msg_sender e1 = msg_sender e0 -> msg_sender e2 = msg_sender e0 ->
        emergencyMode (run s [(e1, ToggleEmergencyMode); (e2, ToggleEmergencyMode)])
          = emergencyMode s).
Proof.
  intros s os.
  pose proof (reachable_inv e0 txs) as Hinv. fold s in Hinv.
  assert (Hflag : emergencyMode s = Nat.odd (toggles_by (msg_sender e0) txs)).
  { subst s. rewrite (run_emergency (msg_sender e0)) by apply constructor_inv.
    reflexivity. }
  split; [exact Hflag|]. split; [|split; [|split]].
  - unfold getStats. rewrite <- Hflag.
    destruct (created_ids_run txs (constructor e0)) as [_ Hcnt].
    fold s os in Hcnt. rewrite Hcnt. reflexivity.
  - intros e He.
    rewrite call_toggleEmergencyMode, toggleEmergencyMode_eq, (inv_admin _ _ Hinv).
    destruct (N.eqb_spec (msg_sender e) (msg_sender e0)); [contradiction | auto].
  - intros e He. unfold step; simpl fst; simpl snd.
    rewrite call_toggleEmergencyMode, (inv_admin _ _ Hinv), He, N.eqb_refl.
    auto.
  - intros e1 e2 H1 H2.
    rewrite (run_emergency (msg_sender e0)) by assumption.
    unfold toggles_by, is_toggle_by. simpl. rewrite H1, H2, N.eqb_refl. simpl.
    apply xorb_false_r.
Qed.

(** ** Events *)

Lemma call_detail_emitted e s c r s' :
  call_detail e s c r s' ->
  emitted s' = emitted s ++ option_list (emitted_by s (e, c) r)
  /\ is_commit (e, c, r)
     = match emitted_by s (e, c) r with Some _ => true | None => false end.
Proof.
  intros [c0 er | c0 v Hv | | | | | ]; simpl; auto.
  - destruct c0; simpl; rewrite app_nil_r; auto.
  - rewrite Hv. destruct c0; try discriminate; simpl; rewrite app_nil_r; auto.
Qed.

Lemma emitted_by_not_RecordAccessed s tx r ev :
  emitted_by s tx r = Some ev -> is_RecordAccessed ev = false.
Proof.
  destruct tx as [e c]. destruct c, r as [v|er]; simpl; try discriminate;
    try (intros [= <-]; reflexivity).
  destruct v; try discriminate. intros [= <-]. reflexivity.
Qed.

Lemma run_emitted txs : forall s,
  emitted (run s txs) = emitted s ++ expected_events s txs.
Proof.
  induction txs as [|[e c] txs IH]; intros s.
  - simpl. rewrite app_nil_r. reflexivity.
  - change (run s ((e, c) :: txs)) with (run (step s (e, c)) txs).
    rewrite IH. simpl expected_events.
    change (emitted (step s (e, c))) with (emitted (snd (call e c s))).
    rewrite (proj1 (call_detail_emitted e s c _ _ (call_detail_intro e c s))).
    rewrite <- app_assoc. reflexivity.
Qed.

Lemma expected_events_length txs : forall s,
  length (expected_events s txs)
    = length (List.filter is_commit (outcomes s txs)).
Proof.
  induction txs as [|[e c] txs IH]; intros s; [reflexivity|].
  change (expected_events s ((e, c) :: txs))
    with (option_list (emitted_by s (e, c) (fst (call e c s)))
            ++ expected_events (step s (e, c)) txs).
  change (outcomes s ((e, c) :: txs))
    with ((e, c, fst (call e c s)) :: outcomes (step s (e, c)) txs).
  cbn [List.filter].
  rewrite length_app, IH.
  rewrite (proj2 (call_detail_emitted e s c _ _ (call_detail_intro e c s))).
  destruct (emitted_by s (e, c) (fst (call e c s))); reflexivity.
Qed.

Lemma expected_events_not_RecordAccessed txs : forall s,
  Forall (fun ev => is_RecordAccessed ev = false) (expected_events s txs).
Proof.
  induction txs as [|tx txs IH]; intros s; simpl; [constructor|].
  apply Forall_app. split; [|apply IH].
  destruct (emitted_by s tx _) as [ev|] eqn:Hev; simpl; [|constructor].
  constructor; [|constructor].
  eapply emitted_by_not_RecordAccessed. eassumption.
Qed.

(** X15. Along any history the events emitted are, in order, one per
    successful call of a state-changing function: UserRegistered,
    RecordCreated with the new id, AccessGranted with the computed
    [expiresAt], AccessRevoked, EmergencyModeToggled with the new flag.
    Failed calls and views emit nothing, and no RecordAccessed event is
    ever emitted, by [getRecord] or otherwise. *)
Theorem events_trace e0 txs :
  let s := run (constructor e0) txs in
  emitted s = expected_events (constructor e0) txs
  /\ length (emitted s)
     = length (List.filter is_commit (outcomes (constructor e0) txs))
  /\ Forall (fun ev => is_RecordAccessed ev = false) (emitted s)
  /\ (forall e id, emitted (snd (call e (GetRecord id) s)) = emitted s).
Proof.
  intros s.
  assert (Hem : emitted s = expected_events (constructor e0) txs).
  { subst s. rewrite run_emitted. reflexivity. }
  split; [exact Hem|]. split; [|split].
  - rewrite Hem. apply expected_events_length.
  - rewrite Hem. apply expected_events_not_RecordAccessed.
  - intros e id. unfold call, dispatch, view, rmap, rbind.
    destruct (getRecord e id s); reflexivity.
Qed.

(** ** The doctor's list *)

(** X16. [getDoctorAccessibleRecords] answers only a caller with role
    Doctor asking for their own address: a caller with another role fails
    with "Only doctors allowed", whatever address is asked for, and a
    Doctor asking for another address fails with "Can only check your own
    accessible records". In the state reached by any history the deploying
    admin, every Patient and every unregistered identity are therefore
    refused. *)
Theorem getDoctorAccessibleRecords_guards e0 txs e d :
  let s := run (constructor e0) txs in
  let caller := msg_sender e in
  (User.role (user_of s caller) <> Doctor ->
     getDoctorAccessibleRecords e d s = Err OnlyDoctors)
  /\ (User.role (user_of s caller) = Doctor -> d <> caller ->
      getDoctorAccessibleRecords e d s = Err NotOwnList)
  /\ (caller = msg_sender e0 \/ User.isRegistered (user_of s caller) = false ->
      getDoctorAccessibleRecords e d s = Err OnlyDoctors)
  /\ (forall ids, getDoctorAccessibleRecords e d s = Ok ids ->
        User.role (user_of s caller) = Doctor /\ d = caller).
Proof.
  intros s caller.
  pose proof (reachable_inv e0 txs) as Hinv. fold s in Hinv.
  assert (H1 : User.role (user_of s caller) <> Doctor ->
               getDoctorAccessibleRecords e d s = Err OnlyDoctors).
  { intros Hr. apply UserRole_eqb_neq in Hr.
    unfold getDoctorAccessibleRecords, onlyDoctor, require. fold caller.
    rewrite Hr. reflexivity. }
  assert (H2 : User.role (user_of s caller) = Doctor -> d <> caller ->
               getDoctorAccessibleRecords e d s = Err NotOwnList).
  { intros Hr Hd. apply N.eqb_neq in Hd.
    unfold getDoctorAccessibleRecords, onlyDoctor, require. fold caller.
    rewrite Hr, Hd. reflexivity. }
  split; [exact H1|]. split; [exact H2|]. split.
  - intros [Ha | Hu]; apply H1.
    + apply (inv_one_admin _ _ Hinv) in Ha. congruence.
    + intros Hr.
      assert (User.isRegistered (user_of s caller) = true)
        by (apply (inv_registered _ _ Hinv); congruence).
      congruence.
  - intros ids Hok.
    destruct (UserRole_eqb (User.role (user_of s caller)) Doctor) eqn:Hr.
    + apply UserRole_eqb_eq in Hr. split; [assumption|].
      destruct (N.eq_dec d caller) as [Hd | Hd]; [assumption|].
      rewrite (H2 Hr Hd) in Hok. discriminate.
    + apply UserRole_eqb_neq in Hr. rewrite (H1 Hr) in Hok. discriminate.
Qed.

Lemma getDoctorAccessibleRecords_Ok e d s ids :
  getDoctorAccessibleRecords e d s = Ok ids ->
  User.role (user_of s (msg_sender e)) = Doctor
  /\ d = msg_sender e
  /\ recordCounter s <= MAX_UINT64.
Proof.
  unfold getDoctorAccessibleRecords, onlyDoctor, require, new_array.
  destruct (UserRole_eqb _ Doctor) eqn:Hrole; simpl; [|discriminate].
  destruct (N.eqb_spec d (msg_sender e)); simpl; [|discriminate].
  destruct (N.leb_spec (recordCounter s) MAX_UINT64); simpl; [|discriminate].
  intros _. apply UserRole_eqb_eq in Hrole. auto.
Qed.

(** X17. Every id that [getDoctorAccessibleRecords] lists can be read by
    the doctor it was listed for: whenever the call returns a list,
    [getRecord] called by the same caller at the same time succeeds on
    every id of the list. *)
Theorem accessible_records_all_readable e d s ids :
  getDoctorAccessibleRecords e d s = Ok ids ->
  Forall (fun id => exists r, getRecord e id s = Ok r) ids.
Proof.
  intros Hok.
  destruct (getDoctorAccessibleRecords_Ok e d s ids Hok) as (Hrole & -> & Hmax).
  rewrite getDoctorAccessibleRecords_filter in Hok by assumption.
  injection Hok as <-.
  apply Forall_forall. intros id Hin.
  apply elem_of_filter_bool in Hin. destruct Hin as [_ Hacc].
  unfold accessible in Hacc. apply andb_true_iff in Hacc.
  destruct Hacc as [Hex Hvalid].
  rewrite getRecord_eq. cbv zeta. rewrite Hex. simpl.
  unfold isAuthorized. rewrite Hvalid, orb_true_r. simpl. eauto.
Qed.

(** ** What the audit trails hold *)

(** X18. In the state reached by any history, every entry of an identity's
    audit trail is logged under that identity and is either a "CREATE"
    carrying the id and creation time of an existing record the identity
    owns, or a "GRANT_ACCESS" or "REVOKE_ACCESS" with record id 0; no
    entry has the action "VIEW". Only Patients ever get entries: the trail
    of a Doctor, of the admin and of an unregistered identity is empty. *)
Theorem audit_trail_entries e0 txs a :
  let s := run (constructor e0) txs in
  exists trail,
    getAuditTrail a s = Ok trail
    /\ Forall (audit_entry_ok s a) trail
    /\ Forall (fun l => AuditLog.action l <> "VIEW") trail
    /\ (User.role (user_of s a) <> Patient -> trail = []).
Proof.
  intros s.
  pose proof (reachable_tables e0 txs) as Htab. fold s in Htab.
  destruct (tinv_audit _ Htab a) as [Hall Hpat].
  exists (auditTrail_of s a). split; [reflexivity|]. split; [exact Hall|]. split.
  - eapply Forall_impl; [exact Hall|].
    intros l [_ [(Hact & _) | [(Hact & _) | (Hact & _)]]]; rewrite Hact;
      discriminate.
  - intros Hrole. destruct (auditTrail_of s a) eqn:Hl; [reflexivity|].
    exfalso. apply Hrole, Hpat. discriminate.
Qed.

(** ** The emergency override *)

Lemma scan_records_agree e d s s' fuel : forall i acc count,
  recordCounter s' = recordCounter s ->
  records s' = records s ->
  permissions s' = permissions s ->
  scan_records fuel e s' d i acc count = scan_records fuel e s d i acc count.
Proof.
  intros i acc count Hc Hr Hp. revert i acc count.
  assert (Hrec : forall i, record_of s' i = record_of s i)
    by (intros i; unfold record_of; rewrite Hr; reflexivity).
  assert (Hacc : forall p i, _hasAccess e p d i s' = _hasAccess e p d i s)
    by (intros p i; unfold _hasAccess, permission_of; rewrite Hp; reflexivity).
  induction fuel as [|fuel IH]; intros i acc count;
    rewrite (scan_records_unfold _ e s'), (scan_records_unfold _ e s), Hc;
    [reflexivity|].
  rewrite Hrec, Hacc.
  destruct (i <=? recordCounter s); [|reflexivity].
  destruct (if MedicalRecord.exists_ (record_of s i) then _ else _)
    as [[acc' count']|er]; simpl; [|reflexivity].
  destruct (checked_add i 1); simpl; [apply IH | reflexivity].
Qed.

Lemma getDoctorAccessibleRecords_agree e d s s' :
  users s' = users s ->
  recordCounter s' = recordCounter s ->
  records s' = records s ->
  permissions s' = permissions s ->
  getDoctorAccessibleRecords e d s' = getDoctorAccessibleRecords e d s.
Proof.
  intros Hu Hc Hr Hp.
  unfold getDoctorAccessibleRecords, onlyDoctor, user_of.
  rewrite Hu, Hc.
  destruct (require _ "Only doctors allowed"); simpl; [|reflexivity].
  destruct (require _ "Can only check your own accessible records"); simpl;
    [|reflexivity].
  destruct (new_array (recordCounter s)); simpl; [|reflexivity].
  rewrite (scan_records_agree e d s s') by assumption.
  reflexivity.
Qed.

(** X19. In a reachable state with emergency mode off, a Doctor without a
    valid grant from a record's owner is refused by [getRecord] with
    "Unauthorized access"; once the admin has toggled emergency mode on,
    the same call succeeds; once the admin has toggled it off again, it
    is refused again. The doctor's [getDoctorAccessibleRecords] is the
    same before and after each toggle. *)
Theorem emergency_override e0 txs ea e id :
  let s := run (constructor e0) txs in
  let doctor := msg_sender e in
  let owner := MedicalRecord.patientAddress (record_of s id) in
  let on := run s [(ea, ToggleEmergencyMode)] in
  let off := run s [(ea, ToggleEmergencyMode); (ea, ToggleEmergencyMode)] in
  msg_sender ea = msg_sender e0 ->
  User.role (user_of s doctor) = Doctor ->
  MedicalRecord.exists_ (record_of s id) = true ->
  access_valid e s owner doctor = false ->
  emergencyMode s = false ->
  getRecord e id s = Err Unauthorized
  /\ (exists r, getRecord e id on = Ok r)
  /\ getRecord e id off = Err Unauthorized
  /\ getDoctorAccessibleRecords e doctor on = getDoctorAccessibleRecords e doctor s
  /\ getDoctorAccessibleRecords e doctor off = getDoctorAccessibleRecords e doctor s.
Proof.
  intros s doctor owner on off Hadmin Hdoc Hex Hvalid Hoff.
  pose proof (reachable_inv e0 txs) as Hinv. fold s in Hinv.
  pose proof (reachable_tables e0 txs) as Htab. fold s in Htab.
  assert (Hon : on = toggled_state s).
  { subst on. simpl run. unfold step; simpl fst; simpl snd.
    rewrite call_toggleEmergencyMode, (inv_admin _ _ Hinv), Hadmin, N.eqb_refl.
    reflexivity. }
  assert (Hoff' : off = toggled_state (toggled_state s)).
  { subst off. change (run s [(ea, ToggleEmergencyMode); (ea, ToggleEmergencyMode)])
      with (run on [(ea, ToggleEmergencyMode)]).
    rewrite Hon. simpl run. unfold step; simpl fst; simpl snd.
    rewrite call_toggleEmergencyMode.
    change (admin (toggled_state s)) with (admin s).
    rewrite (inv_admin _ _ Hinv), Hadmin, N.eqb_refl. reflexivity. }
  assert (Hown : owned_by s owner id = true).
  { apply owned_by_iff. auto. }
  assert (Hpat : User.role (user_of s owner) = Patient)
    by (apply (tinv_owner _ Htab); assumption).
  assert (Hget : forall s1,
            users s1 = users s -> records s1 = records s ->
            permissions s1 = permissions s -> admin s1 = admin s ->
            getRecord e id s1 =
              if emergencyMode s1
              then Ok (owner, MedicalRecord.ipfsHash (record_of s id),
                       MedicalRecord.recordType (record_of s id),
                       MedicalRecord.description (record_of s id),
                       MedicalRecord.timestamp (record_of s id))
              else Err Unauthorized).
  { intros s1 Hu Hr Hp Ha.
    assert (Hrec : record_of s1 id = record_of s id)
      by (unfold record_of; rewrite Hr; reflexivity).
    assert (Hav : access_valid e s1 owner doctor = false).
    { rewrite <- Hvalid. unfold access_valid, checkAccess, permission_of.
      rewrite Hp. reflexivity. }
    assert (Hus : User.role (user_of s1 doctor) = Doctor).
    { rewrite <- Hdoc. unfold user_of. rewrite Hu. reflexivity. }
    assert (Hne : (doctor =? owner) = false).
    { apply N.eqb_neq. intros Heq. rewrite Heq in Hdoc. congruence. }
    assert (Hna : (doctor =? admin s1) = false).
    { rewrite Ha. apply N.eqb_neq. intros Heq.
      assert (User.role (user_of s doctor) = Admin).
      { apply (inv_one_admin _ _ Hinv). rewrite Heq. apply (inv_admin _ _ Hinv). }
      congruence. }
    rewrite getRecord_eq. cbv zeta. rewrite Hrec, Hex. simpl.
    replace (isAuthorized e s1 (msg_sender e) (record_of s id))
      with (emergencyMode s1);
      [destruct (emergencyMode s1); reflexivity|].
    unfold isAuthorized. fold doctor owner.
    rewrite Hav, Hus, Hne, Hna. simpl.
    rewrite andb_true_r, orb_false_r. reflexivity. }
  split; [|split; [|split; [|split]]].
  - rewrite (Hget s) by reflexivity. rewrite Hoff. reflexivity.
  - rewrite Hon, (Hget (toggled_state s)) by reflexivity.
    simpl. rewrite Hoff. simpl. eauto.
  - rewrite Hoff', (Hget (toggled_state (toggled_state s))) by reflexivity.
    simpl. rewrite Hoff. reflexivity.
  - rewrite Hon. apply getDoctorAccessibleRecords_agree; reflexivity.
  - rewrite Hoff'. apply getDoctorAccessibleRecords_agree; reflexivity.
Qed.

(** ** Failing calls *)

(** X20. Whatever function is called, by whom and with what arguments, a
    call that fails has written nothing at the point where it stops: every
    [require] and every overflow check of every function comes before its
    first write, so the state after a failed call, reverted or not, is the
    state before it. *)
Theorem failing_call_writes_nothing e c s er :
  fst (dispatch e c s) = Err er ->
  snd (dispatch e c s) = s /\ call e c s = (Err er, s).
Proof.
  intros Hfail. unfold call.
  destruct (dispatch e c s) as [[v|er'] s'] eqn:Hd; simpl in *; [discriminate|].
  injection Hfail as ->. split; [|reflexivity].
  eapply dispatch_fail_no_write. eassumption.
Qed.

(** ** The frontend's helpers *)

Lemma string_length_append a b :
  String.length (String.append a b) = (String.length a + String.length b)%nat.
Proof. induction a as [|c a IH]; simpl; [reflexivity | rewrite IH; reflexivity]. Qed.

Lemma substring_0_short m : forall s,
  (String.length s <= m)%nat -> String.substring 0 m s = s.
Proof.
  induction m as [|m IH]; intros [|c s] Hlen; simpl in *; try reflexivity;
    [lia|].
  rewrite IH by lia. reflexivity.
Qed.

Lemma substring_split n : forall s,
  (n <= String.length s)%nat ->
  s = String.append (String.substring 0 n s)
        (String.substring n (String.length s - n) s).
Proof.
  induction n as [|n IH]; intros s Hlen.
  - rewrite Nat.sub_0_r, (substring_0_short (String.length s) s) by lia.
    destruct s; reflexivity.
  - destruct s as [|c s]; simpl in *; [lia|].
    change (String c s = String c (String.append (String.substring 0 n s)
                           (String.substring n (String.length s - n) s))).
    f_equal. apply IH. lia.
Qed.

Lemma substring_length n : forall m s,
  (n + m <= String.length s)%nat -> String.length (String.substring n m s) = m.
Proof.
  induction n as [|n IH]; intros m s Hlen.
  - revert s Hlen. induction m as [|m IHm]; intros [|c s] Hlen; simpl in *;
      try reflexivity; [lia|].
    rewrite IHm by lia. reflexivity.
  - destruct s as [|c s]; simpl in *; [lia|]. apply IH. lia.
Qed.

Lemma substring_append_l pre : forall s,
  String.substring 0 (String.length pre) (String.append pre s) = pre.
Proof.
  induction pre as [|c pre IH]; intros s; simpl.
  - destruct s; reflexivity.
  - rewrite IH. reflexivity.
Qed.

Lemma substring_append_r pre : forall k m s,
  String.substring (String.length pre + k) m (String.append pre s)
    = String.substring k m s.
Proof. induction pre as [|c pre IH]; intros k m s; simpl; [reflexivity | apply IH]. Qed.

(** X21. [formatAddress] abbreviates a 42-character address to 13
    characters: its first six characters, three dots, and its last four
    characters. A string of at most six characters comes back whole,
    followed by the three dots. *)
Theorem formatAddress_shape address :
  (String.length address = 42%nat ->
     exists pre mid suf,
       address = String.append pre (String.append mid suf)
       /\ String.length pre = 6%nat /\ String.length suf = 4%nat
       /\ App.formatAddress address = String.append pre (String.append "..." suf)
       /\ String.length (App.formatAddress address) = 13%nat)
  /\ ((String.length address <= 6)%nat ->
      App.formatAddress address = String.append address "...").
Proof.
  split.
  - intros Hlen.
    pose proof (substring_split 6 address ltac:(lia)) as Hsplit.
    set (pre := String.substring 0 6 address) in *.
    set (rest := String.substring 6 (String.length address - 6) address) in *.
    assert (Hpre : String.length pre = 6%nat)
      by (apply (substring_length 0 6 address); lia).
    assert (Hrest : String.length rest = 36%nat).
    { apply (f_equal String.length) in Hsplit.
      rewrite string_length_append in Hsplit. lia. }
    pose proof (substring_split 32 rest ltac:(lia)) as Hsplit2.
    set (mid := String.substring 0 32 rest) in *.
    set (suf := String.substring 32 (String.length rest - 32) rest) in *.
    assert (Hmid : String.length mid = 32%nat)
      by (apply (substring_length 0 32 rest); lia).
    assert (Hsuf : String.length suf = 4%nat).
    { apply (f_equal String.length) in Hsplit2.
      rewrite string_length_append in Hsplit2. lia. }
    exists pre, mid, suf.
    assert (Haddr : address = String.append pre (String.append mid suf))
      by (rewrite <- Hsplit2; exact Hsplit).
    assert (Hfmt : App.formatAddress address
                   = String.append pre (String.append "..." suf)).
    { unfold App.formatAddress, App.substring. rewrite Hlen. simpl default.
      change (Nat.min (Nat.min 0 42) (Nat.min 6 42)) with 0%nat.
      change (Nat.max (Nat.min 0 42) (Nat.min 6 42) - 0)%nat with 6%nat.
      change (Nat.min (Nat.min 38 42) (Nat.min 42 42)) with 38%nat.
      change (Nat.max (Nat.min 38 42) (Nat.min 42 42) - 38)%nat with 4%nat.
      fold pre. f_equal. f_equal.
      rewrite Haddr.
      replace 38%nat with (String.length pre + 32)%nat by lia.
      rewrite substring_append_r.
      replace 32%nat with (String.length mid + 0)%nat by lia.
      rewrite substring_append_r.
      apply substring_0_short. lia. }
    split; [exact Haddr|]. split; [exact Hpre|]. split; [exact Hsuf|].
    split; [exact Hfmt|].
    rewrite Hfmt, !string_length_append, Hpre, Hsuf. reflexivity.
  - intros Hlen. unfold App.formatAddress, App.substring. simpl default.
    rewrite (Nat.min_l (String.length address) (String.length address)) by lia.
    rewrite (Nat.min_r 6 (String.length address)) by lia.
    rewrite (Nat.min_r 38 (String.length address)) by lia.
    rewrite (Nat.min_l 0 (String.length address)) by lia.
    rewrite (Nat.min_l 0 (String.length address)) by lia.
    rewrite Nat.min_id, Nat.max_id, Nat.sub_diag, Nat.sub_0_r.
    rewrite (Nat.max_r 0 (String.length address)) by lia.
    rewrite (substring_0_short (String.length address) address) by lia.
    f_equal.
    replace (String.substring (String.length address) 0 address) with ""%string;
      [reflexivity|].
    clear Hlen. induction address as [|c a IH]; simpl; [reflexivity | exact IH].
Qed.

(** X22. For each role of the contract's enum, [getRoleName] of the
    number the contract returns for it is the role's name in the contract
    ("None", "Patient", "Doctor", "Admin"), and different roles get
    different names; for an integer that is no role's number, below 0 or
    above 3, it is "Unknown". *)
Theorem getRoleName_agrees :
  (forall r, App.getRoleName (UserRole_ordinal r) = UserRole_name r)
  /\ (forall r1 r2,
        App.getRoleName (UserRole_ordinal r1) = App.getRoleName (UserRole_ordinal r2) ->
        r1 = r2)
  /\ (forall z, App.getRoleName z = "Unknown" <-> (z < 0 \/ 3 < z)%Z).
Proof.
  split; [|split].
  - intros []; reflexivity.
  - intros [] []; simpl; try reflexivity; discriminate.
  - intros z. unfold App.getRoleName.
    destruct (Z.leb_spec 0 z) as [Hz | Hz]; [|split; [lia | reflexivity]].
    destruct (Z.to_nat z) as [|[|[|[|n]]]] eqn:Hn; simpl;
      (split; [try discriminate; intros _; lia | intros H; try lia; reflexivity]).
Qed.

(** ** Times *)

Lemma StronglySorted_cons_le (x : N) l :
  StronglySorted N.le l -> Forall (fun y => x <= y) l ->
  StronglySorted N.le (x :: l).
Proof. intros Hs Hall. constructor; assumption. Qed.

Lemma logged_action_time a e c r l :
  logged_action a (e, c, r) = Some l -> AuditLog.timestamp l = block_timestamp e.
Proof.
  destruct c; simpl; try discriminate.
  - destruct r as [[]|]; try discriminate.
    destruct (_ =? _); [intros [= <-]; reflexivity | discriminate].
  - destruct r; [|discriminate].
    destruct (_ =? _); [intros [= <-]; reflexivity | discriminate].
  - destruct r; [|discriminate].
    destruct (_ =? _); [intros [= <-]; reflexivity | discriminate].
Qed.

Lemma logged_actions_in_time a txs : forall T s,
  chronological T txs ->
  StronglySorted N.le (map AuditLog.timestamp (logged_actions a (outcomes s txs)))
  /\ Forall (fun t => T <= t)
       (map AuditLog.timestamp (logged_actions a (outcomes s txs))).
Proof.
  induction txs as [|[e c] txs IH]; intros T s Hchr.
  - simpl. split; constructor.
  - destruct Hchr as [HT Hchr]. simpl fst in *.
    destruct (IH (block_timestamp e) (step s (e, c)) Hchr) as [Hs Hall].
    change (outcomes s ((e, c) :: txs))
      with ((e, c, fst (call e c s)) :: outcomes (step s (e, c)) txs).
    unfold logged_actions at 1 2. rewrite omap_cons_option_list.
    fold (logged_actions a (outcomes (step s (e, c)) txs)).
    assert (Hall' : Forall (fun t => T <= t)
              (map AuditLog.timestamp (logged_actions a (outcomes (step s (e, c)) txs)))).
    { eapply Forall_impl; [exact Hall|]. intros t Ht. simpl in Ht. lia. }
    destruct (logged_action a (e, c, fst (call e c s))) as [l|] eqn:Hl; simpl.
    + apply logged_action_time in Hl. rewrite Hl.
      split; [apply StronglySorted_cons_le; assumption|].
      constructor; assumption.
    + split; assumption.
Qed.

Lemma call_detail_records_in_time dep T e s c r s' :
  call_detail e s c r s' -> state_inv dep s ->
  T <= block_timestamp e ->
  records_in_time T s -> records_in_time (block_timestamp e) s'.
Proof.
  intros Hcd Hinv HT [Hmax Hord].
  assert (Hweak : records_in_time (block_timestamp e) s).
  { split; [|exact Hord]. intros id Hex. specialize (Hmax id Hex). lia. }
  destruct Hcd as [ | | | h t d _ _ _ _ | | | ]; try exact Hweak.
  split.
  - intros id. rewrite record_of_created_state.
    case_decide; simpl; [lia|]. intros Hex. specialize (Hmax id Hex). lia.
  - intros id1 id2 Hle. rewrite !record_of_created_state.
    pose proof (inv_exists _ _ Hinv id1) as Hr1.
    pose proof (inv_exists _ _ Hinv id2) as Hr2.
    repeat case_decide; simpl; intros Hex1 Hex2.
    + lia.
    + apply Hr2 in Hex2. lia.
    + specialize (Hmax id1 Hex1). lia.
    + apply Hord; assumption.
Qed.

Lemma run_records_in_time dep txs : forall T s,
  state_inv dep s -> chronological T txs -> records_in_time T s ->
  exists T', records_in_time T' (run s txs).
Proof.
  induction txs as [|[e c] txs IH]; intros T s Hinv Hchr Hrec.
  - exists T. exact Hrec.
  - destruct Hchr as [HT Hchr]. simpl fst in *.
    change (run s ((e, c) :: txs)) with (run (step s (e, c)) txs).
    apply (IH (block_timestamp e)); [apply step_inv; assumption | assumption|].
    apply (call_detail_records_in_time dep T e s c _ _ (call_detail_intro e c s));
      assumption.
Qed.

(** X23. Along a history whose block times never go back, the entries of
    every audit trail are in non-decreasing order of time, and the
    records' creation times are non-decreasing in the record id. *)
Theorem timestamps_chronological e0 txs :
  let s := run (constructor e0) txs in
  chronological (block_timestamp e0) txs ->
  (forall a, exists trail,
      getAuditTrail a s = Ok trail
      /\ StronglySorted N.le (map AuditLog.timestamp trail))
  /\ (forall id1 id2, id1 <= id2 ->
        MedicalRecord.exists_ (record_of s id1) = true ->
        MedicalRecord.exists_ (record_of s id2) = true ->
        MedicalRecord.timestamp (record_of s id1)
          <= MedicalRecord.timestamp (record_of s id2)).
Proof.
  intros s Hchr. split.
  - intros a. exists (auditTrail_of s a). split; [reflexivity|].
    subst s. rewrite logged_actions_run, auditTrail_of_constructor. simpl.
    apply (logged_actions_in_time a txs (block_timestamp e0)). assumption.
  - destruct (run_records_in_time (msg_sender e0) txs (block_timestamp e0)
                (constructor e0)) as [T' [_ Hord]]; [| | |exact Hord].
    + apply constructor_inv.
    + assumption.
    + split; intros id; unfold record_of; simpl; rewrite lookup_empty; simpl;
        discriminate.
Qed.

(** * The further properties at work on the scenario *)

Lemma registerUser_then_getUserInfo_witness :
  fst (call Cases.newcomer_calls (RegisterUser "Eve" Doctor) Scenario.state)
    = Ok RUnit
  /\ getUserInfo Cases.newcomer
       (run Scenario.state
          ((Cases.newcomer_calls, RegisterUser "Eve" Doctor) :: Cases.later))
     = Ok ("Eve", Doctor, true, 5000).
Proof.
  assert (H : fst (call Cases.newcomer_calls (RegisterUser "Eve" Doctor)
                     Scenario.state) = Ok RUnit)
    by (vm_compute; reflexivity).
  split; [exact H|].
  exact (registerUser_then_getUserInfo Cases.newcomer_calls "Eve" Doctor
           Scenario.state Cases.later H).
Defined.

Lemma createRecord_then_getRecord_witness :
  fst (call Scenario.patient_calls_again (CreateRecord "Qm456" "X-Ray" "left arm")
         Scenario.state) = Ok (RUint 2)
  /\ getRecord Scenario.patient_calls_late 2
       (run Scenario.state
          [(Scenario.patient_calls_again, CreateRecord "Qm456" "X-Ray" "left arm");
           (Cases.admin_calls, ToggleEmergencyMode)])
     = Ok (Scenario.patient, "Qm456", "X-Ray", "left arm", 3000).
Proof.
  assert (H : fst (call Scenario.patient_calls_again
                     (CreateRecord "Qm456" "X-Ray" "left arm") Scenario.state)
              = Ok (RUint 2))
    by (vm_compute; reflexivity).
  split; [exact H|].
  exact (proj2 (createRecord_then_getRecord Scenario.deployment Scenario.setup
                  Scenario.patient_calls_again "Qm456" "X-Ray" "left arm" 2
                  [(Cases.admin_calls, ToggleEmergencyMode)]
                  Scenario.patient_calls_late H eq_refl)).
Defined.

Lemma getRecord_readers_witness :
  User.role (user_of Scenario.state Cases.newcomer) = None_
  /\ getRecord Cases.newcomer_calls 1 Scenario.state = Err Unauthorized
  /\ records_getter 1 Scenario.state
     = Ok (1, Scenario.patient, "Qm123", "Lab Report", "blood panel", 1004, true).
Proof.
  assert (H : User.role (user_of Scenario.state (msg_sender Cases.newcomer_calls))
              = None_)
    by (vm_compute; reflexivity).
  split; [exact H|].
  destruct (getRecord_readers Scenario.deployment Scenario.setup
              Cases.newcomer_calls 1) as (_ & Hrefused & Hgetter).
  split.
  - apply (Hrefused (or_introl H)). vm_compute. reflexivity.
  - etransitivity; [exact Hgetter | vm_compute; reflexivity].
Defined.

Lemma grantAccess_window_witness :
  fst (call Scenario.patient_calls
         (GrantAccess Scenario.other_doctor 600 "second opinion") Scenario.state)
    = Ok RUnit
  /\ owned_by Scenario.state Scenario.patient 1 = true
  /\ getRecord Cases.other_doctor_calls 1
       (snd (call Scenario.patient_calls
               (GrantAccess Scenario.other_doctor 600 "second opinion")
               Scenario.state))
     = Err Unauthorized.
Proof.
  assert (H1 : fst (call Scenario.patient_calls
                      (GrantAccess Scenario.other_doctor 600 "second opinion")
                      Scenario.state) = Ok RUnit)
    by (vm_compute; reflexivity).
  assert (H2 : owned_by Scenario.state (msg_sender Scenario.patient_calls) 1 = true)
    by (vm_compute; reflexivity).
  split; [exact H1|]. split; [exact H2|].
  apply (proj2 (proj2 (grantAccess_window Scenario.deployment Scenario.setup
                         Scenario.patient_calls Scenario.other_doctor 600
                         "second opinion" Cases.other_doctor_calls 1
                         H1 eq_refl H2))).
  intros [[H | H] | H]; vm_compute in H;
    try discriminate; destruct H; discriminate.
Defined.

Lemma grant_revoke_frame_witness :
  (Scenario.patient, Scenario.doctor)
    <> (msg_sender Scenario.patient_calls, Scenario.other_doctor)
  /\ checkAccess Scenario.doctor_calls Scenario.patient Scenario.doctor
       (snd (call Scenario.patient_calls
               (GrantAccess Scenario.other_doctor 600 "second opinion")
               Scenario.state))
     = checkAccess Scenario.doctor_calls Scenario.patient Scenario.doctor
         Scenario.state.
Proof.
  assert (H : (Scenario.patient, Scenario.doctor)
              <> (msg_sender Scenario.patient_calls, Scenario.other_doctor))
    by (vm_compute; discriminate).
  split; [exact H|].
  exact (proj1 (proj1 (grant_revoke_frame Scenario.patient_calls
                         Scenario.other_doctor 600 "second opinion"
                         Scenario.state Scenario.patient Scenario.doctor
                         Scenario.doctor_calls H))).
Defined.

Lemma revokeAccess_then_witness :
  fst (call Scenario.patient_calls (RevokeAccess Scenario.doctor) Scenario.state)
    = Ok RUnit
  /\ owned_by Scenario.state Scenario.patient 1 = true
  /\ checkAccess Scenario.doctor_calls Scenario.patient Scenario.doctor
       (snd (call Scenario.patient_calls (RevokeAccess Scenario.doctor)
               Scenario.state))
     = Ok (false, 1005, 87405, "consultation")
  /\ getRecord Scenario.doctor_calls 1
       (snd (call Scenario.patient_calls (RevokeAccess Scenario.doctor)
               Scenario.state))
     = Err Unauthorized.
Proof.
  assert (H1 : fst (call Scenario.patient_calls (RevokeAccess Scenario.doctor)
                      Scenario.state) = Ok RUnit)
    by (vm_compute; reflexivity).
  assert (H2 : owned_by Scenario.state (msg_sender Scenario.patient_calls) 1 = true)
    by (vm_compute; reflexivity).
  split; [exact H1|]. split; [exact H2|].
  destruct (revokeAccess_then Scenario.deployment Scenario.setup
              Scenario.patient_calls Scenario.doctor Scenario.doctor_calls 1
              H1 eq_refl H2) as (Hcheck & _ & Hoff & _).
  split.
  - etransitivity; [exact Hcheck | vm_compute; reflexivity].
  - apply Hoff. vm_compute. reflexivity.
Defined.

Lemma accessible_records_all_readable_witness :
  getDoctorAccessibleRecords Scenario.doctor_calls Scenario.doctor Scenario.state
    = Ok [1]
  /\ Forall (fun id => exists r, getRecord Scenario.doctor_calls id
                                   Scenario.state = Ok r) [1].
Proof.
  assert (H : getDoctorAccessibleRecords Scenario.doctor_calls Scenario.doctor
                Scenario.state = Ok [1])
    by (vm_compute; reflexivity).
  split; [exact H|].
  exact (accessible_records_all_readable Scenario.doctor_calls Scenario.doctor
           Scenario.state [1] H).
Defined.

Lemma emergency_override_witness :
  getRecord Cases.other_doctor_calls 1 Scenario.state = Err Unauthorized
  /\ (exists r,
        getRecord Cases.other_doctor_calls 1
          (run Scenario.state [(Cases.admin_calls, ToggleEmergencyMode)]) = Ok r)
  /\ getRecord Cases.other_doctor_calls 1
       (run Scenario.state [(Cases.admin_calls, ToggleEmergencyMode);
                            (Cases.admin_calls, ToggleEmergencyMode)])
     = Err Unauthorized.
Proof.
  destruct (emergency_override Scenario.deployment Scenario.setup
              Cases.admin_calls Cases.other_doctor_calls 1)
    as (H1 & H2 & H3 & _); try (vm_compute; reflexivity).
  split; [exact H1|]. split; [exact H2 | exact H3].
Defined.

Lemma failing_call_writes_nothing_witness :
  fst (dispatch Scenario.doctor_calls (CreateRecord "Qm789" "Note" "by a doctor")
         Scenario.state) = Err OnlyPatients
  /\ snd (dispatch Scenario.doctor_calls (CreateRecord "Qm789" "Note" "by a doctor")
            Scenario.state) = Scenario.state.
Proof.
  assert (H : fst (dispatch Scenario.doctor_calls
                     (CreateRecord "Qm789" "Note" "by a doctor") Scenario.state)
              = Err OnlyPatients)
    by (vm_compute; reflexivity).
  split; [exact H|].
  exact (proj1 (failing_call_writes_nothing Scenario.doctor_calls
                  (CreateRecord "Qm789" "Note" "by a doctor") Scenario.state
                  OnlyPatients H)).
Defined.

Lemma formatAddress_shape_witness :
  String.length "0x0a51008a5bbE6687d40E1F6bD583E194D6e0046c" = 42%nat
  /\ String.length (App.formatAddress "0x0a51008a5bbE6687d40E1F6bD583E194D6e0046c")
     = 13%nat.
Proof.
  split; [reflexivity|].
  destruct (proj1 (formatAddress_shape "0x0a51008a5bbE6687d40E1F6bD583E194D6e0046c")
              eq_refl)
    as (pre & mid & suf & _ & _ & _ & _ & Hlen).
  exact Hlen.
Defined.

Lemma timestamps_chronological_witness :
  chronological (block_timestamp Scenario.deployment) Scenario.setup
  /\ exists trail,
       getAuditTrail Scenario.patient Scenario.state = Ok trail
       /\ StronglySorted N.le (map AuditLog.timestamp trail).
Proof.
  assert (H : chronological (block_timestamp Scenario.deployment) Scenario.setup)
    by (simpl; repeat split; lia).
  split; [exact H|].
  exact (proj1 (timestamps_chronological Scenario.deployment Scenario.setup H)
           Scenario.patient).
Defined.

(** * The doctor's list with [2^64] records *)





